(** * VPA trading strategy: anomaly classifier, backtest simulator, metrics

    Shallow embedding of [detect_vpa_anomalies], [backtest_vpa] and
    [calc_metrics] of [vpa_coulling.py] / [vpa_etf_daily.py] (the two files
    carry the same three functions, statement for statement).

    Numbers.  The Python code computes on IEEE doubles.  Prices, volumes,
    percentiles and equity are embedded as exact rationals [Q]; a pandas
    cell that may hold NaN is an [option Q] with [None] for NaN.  Rounding
    is therefore abstracted, comparisons and control flow are not; a bound
    on a computed quantity is stated in the form rounding to nearest keeps
    (non-strict where a double can reach the limit, as the drawdown of
    [calc_metrics] reaches -1 on a near-total loss).  The two
    transcendental operations of [calc_metrics] (float power and
    [math.sqrt]) are parameters of the metrics section. *)

From Stdlib Require Import List Bool Arith ZArith QArith Qround Qabs Lia Lqa Sorted.
From Stdlib Require Strings.String.
Import ListNotations.
Import String.StringSyntax.

Local Open Scope string_scope.
Local Open Scope Q_scope.

(** ** Comparisons on cells *)

Definition Qltb (x y : Q) : bool := negb (Qle_bool y x).

(** [series > threshold] and [series < threshold] where the threshold cell
    may be NaN: every comparison with NaN is [False]. *)
Definition gt_cell (x : Q) (p : option Q) : bool :=
  match p with Some v => Qltb v x | None => false end.

Definition lt_cell (x : Q) (p : option Q) : bool :=
  match p with Some v => Qltb x v | None => false end.

(** ** Linear-interpolation quantile of a window

    [Series.rolling(w).quantile(q)] with the default interpolation: the
    window is ordered, the fractional rank is [q * (nobs - 1)], and the
    result is read at that rank, interpolating linearly between the two
    neighbours when the rank is not an integer. *)

Fixpoint insert_sorted (x : Q) (l : list Q) : list Q :=
  match l with
  | [] => [x]
  | y :: l' => if Qle_bool x y then x :: l else y :: insert_sorted x l'
  end.

Definition sort_window (l : list Q) : list Q := fold_right insert_sorted [] l.

(** The value at fractional rank [idx_with_fraction] of an ordered window. *)
Definition interpolate (s : list Q) (idx_with_fraction : Q) : Q :=
  let idx := Qfloor idx_with_fraction in
  let vlow := nth (Z.to_nat idx) s 0 in
  if Qeq_bool idx_with_fraction (inject_Z idx) then vlow
  else
    let vhigh := nth (S (Z.to_nat idx)) s 0 in
    vlow + (vhigh - vlow) * (idx_with_fraction - inject_Z idx).

(** NaN on a window without observations. *)
Definition quantile_linear (q : Q) (w : list Q) : option Q :=
  match w with
  | [] => None
  | _ :: _ =>
      Some (interpolate (sort_window w)
                        (q * (inject_Z (Z.of_nat (length w)) - 1)))
  end.

(** ** Rolling windows

    The rolling aggregation walks the series once; the window buffer takes
    each new observation and drops the oldest one when it holds more than
    [window] values.  With the default [min_periods = window] the result is
    NaN until the buffer is full. *)

Definition push_window (window : nat) (buf : list Q) (x : Q) : list Q :=
  let b := buf ++ [x] in
  if (window <? length b)%nat then tl b else b.

Fixpoint rolling_from (window : nat) (f : list Q -> option Q)
         (buf : list Q) (xs : list Q) : list (option Q) :=
  match xs with
  | [] => []
  | x :: xs' =>
      let buf' := push_window window buf x in
      (if (length buf' =? window)%nat then f buf' else None)
        :: rolling_from window f buf' xs'
  end.

Definition rolling_quantile (window : nat) (q : Q) (xs : list Q) : list (option Q) :=
  rolling_from window (quantile_linear q) [] xs.

(** ** Bars and classified rows *)

(** One row of the input frame: index label (the date, as an ordinal) and
    the OHLCV columns. *)
Record Bar : Type := mkBar {
  bar_name : Z;
  Open : Q;
  High : Q;
  Low : Q;
  Close : Q;
  Volume : Q
}.

(** One row of the frame returned by [detect_vpa_anomalies]. *)
Record Row : Type := mkRow {
  bar : Bar;
  Spread : Q;
  Body : Q;
  IsUp : bool;
  IsDown : bool;
  Spread_p75 : option Q;
  Spread_p25 : option Q;
  Vol_p_low : option Q;
  Vol_p_high : option Q;
  WideSpread : bool;
  NarrowSpread : bool;
  LowVol : bool;
  HighVol : bool;
  Anomaly_FakeUp : bool;
  Anomaly_FakeDown : bool;
  Anomaly_AbsorbUp : bool;
  Anomaly_AbsorbDown : bool;
  Confirm_Up : bool;
  Confirm_Down : bool;
  Signal_Long : bool;
  Signal_Short : bool
}.

Definition spread_of (b : Bar) : Q := Qabs (High b - Low b).
Definition body_of (b : Bar) : Q := Close b - Open b.

(** The element-wise part of [detect_vpa_anomalies]: every column after the
    four rolling percentiles is a row-by-row expression. *)
Definition classify_row (b : Bar) (sp75 sp25 vlow vhigh : option Q) : Row :=
  let spread := spread_of b in
  let body := body_of b in
  let isUp := Qltb 0 body in
  let isDown := Qltb body 0 in
  let wide := gt_cell spread sp75 in
  let narrow := lt_cell spread sp25 in
  let lowVol := lt_cell (Volume b) vlow in
  let highVol := gt_cell (Volume b) vhigh in
  let fakeUp := isUp && wide && lowVol in
  let fakeDown := isDown && wide && lowVol in
  let absorbUp := isUp && narrow && highVol in
  let absorbDown := isDown && narrow && highVol in
  mkRow b spread body isUp isDown sp75 sp25 vlow vhigh
        wide narrow lowVol highVol
        fakeUp fakeDown absorbUp absorbDown
        (isUp && wide && highVol) (isDown && wide && highVol)
        (fakeDown || absorbDown) (fakeUp || absorbUp).

Fixpoint zip_rows (bs : list Bar) (c1 c2 c3 c4 : list (option Q)) : list Row :=
  match bs, c1, c2, c3, c4 with
  | b :: bs', x1 :: c1', x2 :: c2', x3 :: c3', x4 :: c4' =>
      classify_row b x1 x2 x3 x4 :: zip_rows bs' c1' c2' c3' c4'
  | _, _, _, _, _ => []
  end.

Definition detect_vpa_anomalies (df : list Bar) (lookback : nat) : list Row :=
  let spread := map spread_of df in
  let volume := map Volume df in
  zip_rows df
    (rolling_quantile lookback (75 # 100) spread)
    (rolling_quantile lookback (25 # 100) spread)
    (rolling_quantile lookback (25 # 100) volume)
    (rolling_quantile lookback (75 # 100) volume).

(** ** Backtest simulator *)

Inductive Mode : Type := long_only | short_only | long_short.

Inductive Direction : Type := LONG | SHORT.

(** [mode in ('long_only', 'long_short')] and
    [mode in ('short_only', 'long_short')]. *)
Definition permits_long (m : Mode) : bool :=
  match m with long_only | long_short => true | short_only => false end.

Definition permits_short (m : Mode) : bool :=
  match m with short_only | long_short => true | long_only => false end.

(** The dictionary appended to [trades] on exit.  [entry_date] starts as
    [None] in the code, hence the option. *)
Record Trade : Type := mkTrade {
  entry_date : option Z;
  exit_date : Z;
  direction : Direction;
  bars_held : Z
}.

(** What [backtest_vpa] reads of a frame row: the index label, [Close], and
    the two signal columns through [row.get(col, False)], which are absent
    ([None]) in a frame that was not classified. *)
Record SimRow : Type := mkSimRow {
  name : Z;
  close : Q;
  signal_long : option bool;
  signal_short : option bool
}.

Definition get_flag (c : option bool) : bool :=
  match c with Some b => b | None => false end.

Definition sim_row (r : Row) : SimRow :=
  mkSimRow (bar_name (bar r)) (Close (bar r))
           (Some (Signal_Long r)) (Some (Signal_Short r)).

(** [Series.pct_change()] and [fillna].  Division is exact; a zero previous
    value, where the float computation gives inf or NaN, is outside the
    input contract (prices are positive). *)
Definition pct_change (xs : list Q) : list (option Q) :=
  match xs with
  | [] => []
  | _ :: t => None :: map (fun pc => Some (snd pc / fst pc - 1)) (combine xs t)
  end.

Definition fillna (v : Q) (xs : list (option Q)) : list Q :=
  map (fun c => match c with Some x => x | None => v end) xs.

(** The loop variables of [backtest_vpa]. *)
Record SimState : Type := mkSimState {
  position : Z;
  held : Z;
  entry : option Z;
  trades : list Trade;
  equity : list Q
}.

(** Which branches the loop body took on a bar: the position decision. *)
Record Action : Type := mkAction {
  exited : bool;
  entered : option Direction
}.

Definition no_action : Action := mkAction false None.

(** The loop body, statement by statement.  [pnl] is local to one
    iteration and is threaded next to the loop variables. *)

(** [pnl = position * daily_ret if position != 0 else 0.0] and
    [if position != 0: bars_held += 1]. *)
Definition accrue (daily_ret : Q) (st : SimState) : SimState * Q :=
  if (position st =? 0)%Z then (st, 0)
  else (mkSimState (position st) (held st + 1) (entry st) (trades st) (equity st),
        inject_Z (position st) * daily_ret).

(** [if position != 0 and bars_held >= hold_bars: ...] *)
Definition exit_check (hold_bars : Z) (cost : Q) (row : SimRow)
           (sp : SimState * Q) : SimState * Q * bool :=
  let (st, pnl) := sp in
  if negb (position st =? 0)%Z && (hold_bars <=? held st)%Z
  then (mkSimState 0 0 (entry st)
          (trades st ++
             [mkTrade (entry st) (name row)
                      (if (position st =? 1)%Z then LONG else SHORT) (held st)])
          (equity st),
        pnl - cost, true)
  else (st, pnl, false).

(** [if position == 0: if <long> ... elif <short> ...] *)
Definition entry_check (mode : Mode) (cost : Q) (prev_row row : SimRow)
           (sp : SimState * Q) : SimState * Q * option Direction :=
  let (st, pnl) := sp in
  if (position st =? 0)%Z then
    if get_flag (signal_long prev_row) && permits_long mode
    then (mkSimState 1 0 (Some (name row)) (trades st) (equity st),
          pnl - cost, Some LONG)
    else if get_flag (signal_short prev_row) && permits_short mode
    then (mkSimState (-1) 0 (Some (name row)) (trades st) (equity st),
          pnl - cost, Some SHORT)
    else (st, pnl, None)
  else (st, pnl, None).

(** [equity.append(equity[-1] * (1.0 + pnl))] *)
Definition update_equity (sp : SimState * Q) : SimState :=
  let (st, pnl) := sp in
  mkSimState (position st) (held st) (entry st) (trades st)
             (equity st ++ [last (equity st) 0 * (1 + pnl)]).

(** One iteration of the [for i in range(1, len(data))] loop. *)
Definition bar_step (hold_bars : Z) (cost : Q) (mode : Mode)
           (prev_row row : SimRow) (daily_ret : Q) (st : SimState)
  : SimState * Action :=
  let '(s1, ex) := exit_check hold_bars cost row (accrue daily_ret st) in
  let '(s2, en) := entry_check mode cost prev_row row s1 in
  (update_equity s2, mkAction ex en).

(** The loop over bars [1 .. len-1]; [prev_row] is [data.iloc[i-1]]. *)
Fixpoint run_bars (hold_bars : Z) (cost : Q) (mode : Mode)
         (prev_row : SimRow) (rest : list (SimRow * Q)) (st : SimState)
  : SimState * list Action :=
  match rest with
  | [] => (st, [])
  | (row, daily_ret) :: rest' =>
      let (st', a) := bar_step hold_bars cost mode prev_row row daily_ret st in
      let (st'', acts) := run_bars hold_bars cost mode row rest' st' in
      (st'', a :: acts)
  end.

Definition initial_state (initial_equity : Q) : SimState :=
  mkSimState 0 0 None [] [initial_equity].

(** [data] with its [Return] column. *)
Definition with_returns (df : list SimRow) : list (SimRow * Q) :=
  combine df (fillna 0 (pct_change (map close df))).

(** The simulation proper: final loop variables and the per-bar decisions
    (entry [k] of the list is the decision taken on bar [k+1]). *)
Definition simulate (df : list SimRow) (hold_bars : Z) (cost initial_equity : Q)
           (mode : Mode) : SimState * list Action :=
  match with_returns df with
  | [] => (initial_state initial_equity, [])
  | (row0, _) :: rest =>
      run_bars hold_bars cost mode row0 rest (initial_state initial_equity)
  end.

(** The two columns [backtest_vpa] adds to the frame it returns. *)
Record EquityFrame : Type := mkEquityFrame {
  Equity : list Q;
  Strategy_Return : list Q
}.

(** [backtest_vpa] returns the frame cut to [len(equity)] rows with the
    columns [Equity] and [Strategy_Return] added, and the trade list.  The
    equity list holds the seed and one point per loop iteration, so it is
    as long as the frame; on a frame without rows the loop does not run and
    assigning the one-point list to the empty frame gives a one-row frame. *)
Definition backtest_vpa (df : list SimRow) (hold_bars : Z) (cost initial_equity : Q)
           (mode : Mode) : EquityFrame * list Trade :=
  let st := fst (simulate df hold_bars cost initial_equity mode) in
  (mkEquityFrame (equity st) (fillna 0 (pct_change (equity st))), trades st).

Definition decisions (df : list SimRow) (hold_bars : Z) (cost initial_equity : Q)
           (mode : Mode) : list Action :=
  snd (simulate df hold_bars cost initial_equity mode).

(** Decision taken on bar [i]; bar 0 is never simulated. *)
Definition decision_on (acts : list Action) (i : nat) : option Action :=
  match i with O => None | S k => nth_error acts k end.

(** ** Metrics *)

Inductive exn : Type := IndexError.

Inductive outcome (A : Type) : Type :=
| Returned (a : A)
| Raised (e : exn).

Arguments Returned {A} a.
Arguments Raised {A} e.

Definition bind {A B : Type} (m : outcome A) (k : A -> outcome B) : outcome B :=
  match m with Returned a => k a | Raised e => Raised e end.

Notation "x <- m ;; k" := (bind m (fun x => k))
  (at level 61, m at next level, right associativity).

(** [s.iloc[0]] and [s.iloc[-1]]: out of bounds on an empty series. *)
Definition iloc_first (s : list Q) : outcome Q :=
  match s with [] => Raised IndexError | x :: _ => Returned x end.

Definition iloc_last (s : list Q) : outcome Q :=
  match s with [] => Raised IndexError | x :: t => Returned (last t x) end.

Definition Qsum (s : list Q) : Q := fold_right Qplus 0 s.

Definition mean (s : list Q) : Q := Qsum s / inject_Z (Z.of_nat (length s)).

(** [Series.cummax()] *)
Fixpoint cummax_from (m : Q) (s : list Q) : list Q :=
  match s with
  | [] => []
  | x :: t => let m' := if Qle_bool m x then x else m in m' :: cummax_from m' t
  end.

Definition cummax (s : list Q) : list Q :=
  match s with [] => [] | x :: t => x :: cummax_from x t end.

(** [Series.min()]: NaN on an empty series. *)
Definition series_min (s : list Q) : option Q :=
  match s with
  | [] => None
  | x :: t => Some (fold_left (fun m y => if Qle_bool y m then y else m) t x)
  end.

Record Metrics : Type := mkMetrics {
  total_ret : Q;
  cagr : Q;
  vol : option Q;
  sharpe : Q;
  max_dd : option Q;
  total_trades : nat
}.

Section Metrics.

(** Float power [x ** y] and [math.sqrt], as given by the platform. *)
Variable fpow : Q -> Q -> Q.
Variable fsqrt : Q -> Q.

(** [Series.std()], sample standard deviation (ddof = 1): NaN when the
    series has fewer than two values. *)
Definition std (s : list Q) : option Q :=
  if (length s <? 2)%nat then None
  else
    let m := mean s in
    Some (fsqrt (Qsum (map (fun x => (x - m) * (x - m)) s)
                 / (inject_Z (Z.of_nat (length s)) - 1))).

Definition calc_metrics (data : EquityFrame) (trades : list Trade)
  : outcome Metrics :=
  let eq := Equity data in
  let rets := Strategy_Return data in
  e_last <- iloc_last eq ;;
  e_first <- iloc_first eq ;;
  let total_ret := e_last / e_first - 1 in
  let n_days := length rets in
  let cagr :=
    if (0 <? n_days)%nat
    then fpow (1 + total_ret) (252 / inject_Z (Z.of_nat n_days)) - 1
    else 0 in
  let vol :=
    match std rets with Some s => Some (s * fsqrt 252) | None => None end in
  let sharpe :=
    match vol with
    | Some v => if Qltb 0 v then cagr / v else 0
    | None => 0
    end in
  let running_max := cummax eq in
  let dd := map (fun p => fst p / snd p - 1) (combine eq running_max) in
  Returned (mkMetrics total_ret cagr vol sharpe (series_min dd) (length trades)).

End Metrics.

(** ** Windows by position *)

(** The last [n] elements of a list. *)
Definition lastn (n : nat) (l : list Q) : list Q := skipn (length l - n) l.

(** The window the rolling aggregation holds when it reaches index [i]:
    the last [window] positions up to and including [i]. *)
Definition inclusive_window (window i : nat) (xs : list Q) : list Q :=
  firstn window (skipn (S i - window) xs).

(** The percentile cell at position [i] of a rolling column of width
    [lookback], read off the window by position. *)
Definition percentile_at (lookback : nat) (q : Q) (xs : list Q) (i : nat) : option Q :=
  if (S i <? lookback)%nat then None
  else quantile_linear q (inclusive_window lookback i xs).

(** ** The classifier as the specification words it

    Regime flags against percentiles of the half-open trailing window
    [[i - lookback, i)], null for the first [lookback] bars. *)

Definition trailing_window (lookback i : nat) (xs : list Q) : list Q :=
  firstn lookback (skipn (i - lookback) xs).

Definition spec_above (lookback : nat) (q : Q) (xs : list Q) (i : nat) : option bool :=
  if (i <? lookback)%nat then None
  else match quantile_linear q (trailing_window lookback i xs) with
       | Some p => Some (Qltb p (nth i xs 0))
       | None => None
       end.

Definition spec_below (lookback : nat) (q : Q) (xs : list Q) (i : nat) : option bool :=
  if (i <? lookback)%nat then None
  else match quantile_linear q (trailing_window lookback i xs) with
       | Some p => Some (Qltb (nth i xs 0) p)
       | None => None
       end.

(** A nullable flag quadruple: WideSpread, NarrowSpread, LowVol, HighVol. *)
Definition flag_cells : Type :=
  (option bool * option bool * option bool * option bool)%type.

Definition spec_regime_flags (df : list Bar) (lookback i : nat) : flag_cells :=
  (spec_above lookback (75 # 100) (map spread_of df) i,
   spec_below lookback (25 # 100) (map spread_of df) i,
   spec_below lookback (25 # 100) (map Volume df) i,
   spec_above lookback (75 # 100) (map Volume df) i).

(** The flag columns of the code are boolean columns: a cell is never null. *)
Definition regime_flags (r : Row) : flag_cells :=
  (Some (WideSpread r), Some (NarrowSpread r), Some (LowVol r), Some (HighVol r)).

Definition all_undefined : flag_cells := (None, None, None, None).

(** At most one of the six categories holds. *)
Definition category_count (r : Row) : nat :=
  length (filter (fun b : bool => b)
            [Anomaly_FakeUp r; Anomaly_FakeDown r; Anomaly_AbsorbUp r;
             Anomaly_AbsorbDown r; Confirm_Up r; Confirm_Down r]).

(** ** The simulator as the specification words it: validation first *)

Inductive validated (A : Type) : Type :=
| Accepted (a : A)
| InputValidationError.

Arguments Accepted {A} a.
Arguments InputValidationError {A}.

Fixpoint strictly_increasing (ts : list Z) : bool :=
  match ts with
  | [] => true
  | t :: rest =>
      match rest with
      | [] => true
      | u :: _ => (t <? u)%Z && strictly_increasing rest
      end
  end.

Definition well_formed_input (df : list SimRow) (initial_equity : Q) : bool :=
  strictly_increasing (map name df) && Qltb 0 initial_equity.

Definition spec_backtest_vpa (df : list SimRow) (hold_bars : Z)
           (cost initial_equity : Q) (mode : Mode)
  : validated (EquityFrame * list Trade) :=
  if well_formed_input df initial_equity
  then Accepted (backtest_vpa df hold_bars cost initial_equity mode)
  else InputValidationError.

(** ** Predicates on simulator inputs and outputs *)

Definition is_short (t : Trade) : bool :=
  match direction t with SHORT => true | LONG => false end.

Definition no_long_signal (r : SimRow) : Prop := get_flag (signal_long r) = false.

Definition no_signal (r : SimRow) : Prop :=
  get_flag (signal_long r) = false /\ get_flag (signal_short r) = false.



(** Two bar series of the same length that agree everywhere except,
    possibly, on the OHLCV fields of bar [i]. *)
Definition differ_only_at (i : nat) (df1 df2 : list Bar) : Prop :=
  length df1 = length df2 /\
  (forall j, j <> i -> nth_error df1 j = nth_error df2 j) /\
  option_map bar_name (nth_error df1 i) = option_map bar_name (nth_error df2 i).

(** ** Sample inputs *)

(** A bar whose spread and volume are given and whose body is [body]. *)
Definition sample_bar (t : Z) (spread volume body : Q) : Bar :=
  mkBar t 10 (10 + spread) 10 (10 + body) volume.

(** Spreads 5, 1, 3 on flat volume. *)
Definition df_spreads : list Bar :=
  [sample_bar 0 5 100 0; sample_bar 1 1 100 0; sample_bar 2 3 100 0].

(** Row 2 of [df_spreads] classified with a lookback of 2. *)
Definition row_spreads_2 : Row :=
  classify_row (sample_bar 2 3 100 0)
    (percentile_at 2 (75 # 100) (map spread_of df_spreads) 2)
    (percentile_at 2 (25 # 100) (map spread_of df_spreads) 2)
    (percentile_at 2 (25 # 100) (map Volume df_spreads) 2)
    (percentile_at 2 (75 # 100) (map Volume df_spreads) 2).

(** Two bars only, the second with the wider spread. *)
Definition df_two : list Bar :=
  [sample_bar 0 1 100 0; sample_bar 1 3 100 0].

Definition plain (t : Z) : SimRow := mkSimRow t 100 (Some false) (Some false).
Definition long_sig (t : Z) : SimRow := mkSimRow t 100 (Some true) (Some false).
Definition short_sig (t : Z) : SimRow := mkSimRow t 100 (Some false) (Some true).

(** Long signal on bar 0, short signal on bar 1. *)
Definition df_long_then_short : list SimRow :=
  [long_sig 0; short_sig 1; plain 2; plain 3; plain 4].

(** Duplicate and decreasing index labels. *)
Definition df_malformed : list SimRow :=
  [long_sig 5; plain 5; plain 3; plain 3].

(** Short signal on bar 0, nothing else. *)
Definition df_short_only_signal : list SimRow :=
  [short_sig 0; plain 1; plain 2; plain 3].

(** A down bar on a wide spread and low volume at position 1 (a FakeDown
    under a lookback of 2), and the same series with an unremarkable bar 1. *)
Definition df_signal : list Bar :=
  [sample_bar 0 1 100 0; sample_bar 1 3 50 (-1); sample_bar 2 1 100 0].

Definition df_quiet : list Bar :=
  [sample_bar 0 1 100 0; sample_bar 1 1 100 0; sample_bar 2 1 100 0].

(** Both signals set on one row. *)
Definition both_sig (t : Z) : SimRow := mkSimRow t 100 (Some true) (Some true).

(** A long signal on bar 0 and both signals set on bar 2: under a holding
    period of 2 the position entered on bar 1 expires on bar 3. *)
Definition df_reentry : list SimRow :=
  [long_sig 0; plain 1; both_sig 2; plain 3].

(** ** Invariants of the simulation loop

    [names] is the index of the frame, [k] the position of the last bar
    processed. *)

(** A recorded trade was held for exactly [hold_bars] bars, between two
    bars of the frame that lie [hold_bars] positions apart. *)
Definition completed_trade (names : list Z) (hold_bars : Z) (k : nat) (t : Trade) : Prop :=
  bars_held t = hold_bars /\
  exists e x ed,
    entry_date t = Some ed /\
    nth_error names e = Some ed /\
    nth_error names x = Some (exit_date t) /\
    x = (e + Z.to_nat hold_bars)%nat /\ (x <= k)%nat.

(** An open position was entered [held] bars ago and is still short of the
    holding period. *)
Definition open_position (names : list Z) (hold_bars : Z) (k : nat) (st : SimState) : Prop :=
  position st <> 0%Z ->
  (0 <= held st < hold_bars)%Z /\
  exists e ed,
    entry st = Some ed /\ nth_error names e = Some ed /\
    (Z.of_nat e + held st = Z.of_nat k)%Z.

Definition hold_invariant (names : list Z) (hold_bars : Z)
           (k : nat) (st : SimState) (acts : list Action) : Prop :=
  Forall (completed_trade names hold_bars k) (trades st) /\
  open_position names hold_bars k st.



(** In short-only mode the position is flat or short and every recorded
    trade is a short one. *)
Definition short_only_invariant (k : nat) (st : SimState) (acts : list Action) : Prop :=
  (position st = 0%Z \/ position st = (-1)%Z) /\
  Forall (fun t => direction t = SHORT) (trades st).

(** One equity point per bar processed, the seed first. *)
Definition equity_invariant (initial_equity : Q)
           (k : nat) (st : SimState) (acts : list Action) : Prop :=
  length (equity st) = S k /\ length acts = k /\
  hd_error (equity st) = Some initial_equity.

(** ** The decision of one iteration, as conditions on the loop variables *)

(** The exit branch is taken. *)
Definition exit_due (hold_bars : Z) (st : SimState) : bool :=
  negb (position st =? 0)%Z && (hold_bars <=? held st + 1)%Z.

(** The entry block is reached: flat before the bar, or flat after its exit. *)
Definition flat_for_entry (hold_bars : Z) (st : SimState) : bool :=
  (position st =? 0)%Z || exit_due hold_bars st.

Definition takes_long (hold_bars : Z) (mode : Mode) (prev_row : SimRow)
           (st : SimState) : bool :=
  flat_for_entry hold_bars st
  && (get_flag (signal_long prev_row) && permits_long mode).

Definition takes_short (hold_bars : Z) (mode : Mode) (prev_row : SimRow)
           (st : SimState) : bool :=
  flat_for_entry hold_bars st
  && negb (get_flag (signal_long prev_row) && permits_long mode)
  && (get_flag (signal_short prev_row) && permits_short mode).

Definition decision (hold_bars : Z) (mode : Mode) (prev_row : SimRow)
           (st : SimState) : Action :=
  mkAction (exit_due hold_bars st)
           (if takes_long hold_bars mode prev_row st then Some LONG
            else if takes_short hold_bars mode prev_row st then Some SHORT
            else None).

(** The loop variables that carry the position, without the equity curve. *)
Definition position_state (st : SimState) : Z * Z * option Z * list Trade :=
  (position st, held st, entry st, trades st).

(** What the entry block reads of the previous row. *)
Definition signals (r : SimRow) : bool * bool :=
  (get_flag (signal_long r), get_flag (signal_short r)).

(** ** Further invariants of the simulation loop *)

Definition no_short_signal (r : SimRow) : Prop := get_flag (signal_short r) = false.

(** In long-only mode the position is flat or long and every recorded
    trade is a long one. *)
Definition long_only_invariant (k : nat) (st : SimState) (acts : list Action) : Prop :=
  (position st = 0%Z \/ position st = 1%Z) /\
  Forall (fun t => direction t = LONG) (trades st).

(** The trades of [ts] follow one another between positions [lo] and
    [hi] of the index [names]: each is entered at or after the exit of the
    one before it, and exited at a strictly later position. *)
Fixpoint trades_in_sequence (names : list Z) (lo : nat) (ts : list Trade)
         (hi : nat) : Prop :=
  match ts with
  | [] => (lo <= hi)%nat
  | t :: rest =>
      exists e x ed,
        (lo <= e < x)%nat /\
        entry_date t = Some ed /\ nth_error names e = Some ed /\
        nth_error names x = Some (exit_date t) /\
        trades_in_sequence names x rest hi
  end.

Definition sequence_invariant (names : list Z)
           (k : nat) (st : SimState) (acts : list Action) : Prop :=
  exists b,
    trades_in_sequence names 0 (trades st) b /\ (b <= k)%nat /\
    (position st <> 0%Z ->
     exists e ed, (b <= e <= k)%nat /\ entry st = Some ed /\
                  nth_error names e = Some ed).

(** Every recorded trade, and the open position if there is one, has used
    up its own bars of the frame. *)
Definition count_invariant (hold_bars : Z)
           (k : nat) (st : SimState) (acts : list Action) : Prop :=
  (Z.of_nat (length (trades st)) * hold_bars
   + (if (position st =? 0)%Z then 0 else held st + 1) <= Z.of_nat k)%Z /\
  (0 <= held st)%Z.

(** ** Configuration *)

Definition LOOKBACK_WINDOW : nat := 20.
Definition HOLD_BARS : Z := 5.
Definition COST_PER_TRADE : Q := 1 # 1000.
Definition INITIAL_EQUITY : Q := 10000.

(** ** Scanners

    [get_daily_data] is the market-data collaborator: [fetch sym] is the
    frame it returns for a symbol, [None] when the call raises.  Console
    output is modelled by the values that are printed. *)

(** [df.iloc[-1]] on a frame: out of bounds when the frame has no rows. *)
Definition last_row (rows : list Row) : outcome Row :=
  match rows with [] => Raised IndexError | r :: t => Returned (last t r) end.

(** The [signals] list of [scan_for_anomalies_today], built by six
    independent [if] statements in this order. *)
Definition scan_signals (last : Row) : list String.string :=
  (if Anomaly_FakeUp last then ["FAKE UP (bearish)"] else [])
  ++ (if Anomaly_FakeDown last then ["FAKE DOWN (bullish)"] else [])
  ++ (if Anomaly_AbsorbUp last then ["ABSORB UP (bearish)"] else [])
  ++ (if Anomaly_AbsorbDown last then ["ABSORB DOWN (bullish)"] else [])
  ++ (if Confirm_Up last then ["CONFIRMED UP"] else [])
  ++ (if Confirm_Down last then ["CONFIRMED DOWN"] else []).

(** [', '.join(signals) if signals else "-- no anomaly"] *)
Definition scan_status (last : Row) : String.string :=
  match scan_signals last with
  | [] => "-- no anomaly"
  | sigs => String.concat ", " sigs
  end.

(** One printed line of [scan_for_anomalies_today]: symbol, close and
    status, or the error line of the [except] branch. *)
Inductive ScanLine : Type :=
| StatusLine (sym : String.string) (close_price : Q) (status : String.string)
| ErrorLine (sym : String.string).

Definition scan_symbol (fetch : String.string -> option (list Bar))
           (sym : String.string) : ScanLine :=
  match fetch sym with
  | None => ErrorLine sym
  | Some df =>
      match last_row (detect_vpa_anomalies df LOOKBACK_WINDOW) with
      | Raised _ => ErrorLine sym
      | Returned last => StatusLine sym (Close (bar last)) (scan_status last)
      end
  end.

Definition scan_for_anomalies_today (fetch : String.string -> option (list Bar))
           (symbols : list String.string) : list ScanLine :=
  map (scan_symbol fetch) symbols.

(** The [sigs] list of [scan_today]. *)
Definition scan_today_sigs (last : Row) : list String.string :=
  (if Anomaly_FakeUp last then ["FAKE UP   (bearish reversal)"] else [])
  ++ (if Anomaly_FakeDown last then ["FAKE DOWN (bullish reversal)"] else [])
  ++ (if Anomaly_AbsorbUp last then ["ABSORB UP   (bearish absorption)"] else [])
  ++ (if Anomaly_AbsorbDown last then ["ABSORB DOWN (bullish absorption)"] else [])
  ++ (if Confirm_Up last then ["CONFIRM UP   (trend continuation)"] else [])
  ++ (if Confirm_Down last then ["CONFIRM DOWN (trend continuation)"] else []).

(** [int(x)]: truncation towards zero. *)
Definition int_of (x : Q) : Z := Z.quot (Qnum x) (Zpos (Qden x)).

Record Alert : Type := mkAlert {
  alert_symbol : String.string;
  alert_price : Q;
  alert_volume : Z;
  alert_signal : String.string
}.

(** What one symbol adds in [scan_today]: alerts, clean symbols, error
    lines. *)
Record ScanResult : Type := mkScanResult {
  alerts : list Alert;
  clean : list String.string;
  scan_errors : list String.string
}.

Definition scan_today_symbol (fetch : String.string -> option (list Bar))
           (sym : String.string) : ScanResult :=
  match fetch sym with
  | None => mkScanResult [] [] [sym]
  | Some df =>
      if (length df <? LOOKBACK_WINDOW + 2)%nat then mkScanResult [] [] []
      else
        match last_row (detect_vpa_anomalies df LOOKBACK_WINDOW) with
        | Raised _ => mkScanResult [] [] [sym]
        | Returned last =>
            let sigs := scan_today_sigs last in
            let price := Close (bar last) in
            let vol := int_of (Volume (bar last)) in
            match sigs with
            | [] => mkScanResult [] [sym] []
            | _ :: _ => mkScanResult (map (mkAlert sym price vol) sigs) [] []
            end
        end
  end.

Definition scan_today (fetch : String.string -> option (list Bar))
           (symbols : list String.string) : ScanResult :=
  fold_left
    (fun acc sym =>
       let r := scan_today_symbol fetch sym in
       mkScanResult (alerts acc ++ alerts r) (clean acc ++ clean r)
                    (scan_errors acc ++ scan_errors r))
    symbols (mkScanResult [] [] []).

(** ** Universe backtest *)

(** [round(x, 2)] on a float scalar: scale, round half to even, unscale. *)
Definition rint (x : Q) : Z :=
  let f := Qfloor x in
  let d := x - inject_Z f in
  if Qltb d (1 # 2) then f
  else if Qltb (1 # 2) d then (f + 1)%Z
  else if Z.even f then f else (f + 1)%Z.

Definition round2 (x : Q) : Q := inject_Z (rint (x * 100)) / 100.

(** The dictionary [calc_metrics] of the universe scanner returns. *)
Record MetricsRow : Type := mkMetricsRow {
  mr_Symbol : String.string;
  mr_Mode : Mode;
  mr_Trades : nat;
  mr_TotalRet : Q;
  mr_CAGR : Q;
  mr_Sharpe : Q;
  mr_MaxDD : option Q;
  mr_BH_Ret : Q;
  mr_BH_CAGR : Q
}.

Section UniverseBacktest.

Variable fpow : Q -> Q -> Q.
Variable fsqrt : Q -> Q.

(** [calc_metrics(data, trades, symbol, mode)] of the universe scanner;
    [closes] is the [Close] column of [data]. *)
Definition calc_metrics_etf (closes : list Q) (data : EquityFrame)
           (trades : list Trade) (symbol : String.string) (mode : Mode)
  : outcome MetricsRow :=
  let eq := Equity data in
  let rets := Strategy_Return data in
  let n := length rets in
  e_last <- iloc_last eq ;;
  e_first <- iloc_first eq ;;
  let total_ret := e_last / e_first - 1 in
  let cagr :=
    if (0 <? n)%nat
    then fpow (1 + total_ret) (252 / inject_Z (Z.of_nat n)) - 1
    else 0 in
  let vol :=
    match std fsqrt rets with Some s => Some (s * fsqrt 252) | None => None end in
  let sharpe :=
    match vol with
    | Some v => if Qltb 0 v then cagr / v else 0
    | None => 0
    end in
  let max_dd :=
    series_min (map (fun p => fst p / snd p - 1) (combine eq (cummax eq))) in
  c_last <- iloc_last closes ;;
  c_first <- iloc_first closes ;;
  let bh_ret := c_last / c_first - 1 in
  let bh_cagr :=
    if (0 <? n)%nat
    then fpow (1 + bh_ret) (252 / inject_Z (Z.of_nat n)) - 1
    else 0 in
  Returned (mkMetricsRow symbol mode (length trades)
              (round2 (total_ret * 100)) (round2 (cagr * 100)) (round2 sharpe)
              (option_map (fun d => round2 (d * 100)) max_dd)
              (round2 (bh_ret * 100)) (round2 (bh_cagr * 100))).

(** The body of the [for mode in ('long_only', 'long_short')] loop. *)
Definition backtest_mode (rows : list Row) (sym : String.string) (mode : Mode)
  : outcome MetricsRow :=
  let r := backtest_vpa (map sim_row rows) HOLD_BARS COST_PER_TRADE
                        INITIAL_EQUITY mode in
  calc_metrics_etf (map (fun x => Close (bar x)) rows) (fst r) (snd r) sym mode.

(** What one symbol appends to [results]; an exception leaves what was
    appended before it. *)
Definition backtest_symbol (fetch : String.string -> option (list Bar))
           (sym : String.string) : list MetricsRow :=
  match fetch sym with
  | None => []
  | Some df =>
      if (length df <? LOOKBACK_WINDOW + 10)%nat then []
      else
        let rows := detect_vpa_anomalies df LOOKBACK_WINDOW in
        match backtest_mode rows sym long_only with
        | Raised _ => []
        | Returned r1 =>
            r1 :: match backtest_mode rows sym long_short with
                  | Raised _ => []
                  | Returned r2 => [r2]
                  end
        end
  end.

Definition backtest_all (fetch : String.string -> option (list Bar))
           (symbols : list String.string) : list MetricsRow :=
  flat_map (backtest_symbol fetch) symbols.

End UniverseBacktest.

(** * Properties *)

(** ** Comparisons *)

Lemma Qltb_lt (x y : Q) : Qltb x y = true <-> x < y.
Proof.
  unfold Qltb. rewrite negb_true_iff.
  split; intro H.
  - apply Qnot_le_lt. intro Hle. apply Qle_bool_iff in Hle. congruence.
  - destruct (Qle_bool y x) eqn:E; [|reflexivity].
    apply Qle_bool_iff in E. exfalso. apply (Qlt_not_le _ _ H E).
Qed.

(** ** The rolling buffer holds the last [window] observations *)

Lemma tl_skipn (n : nat) (l : list Q) : tl (skipn n l) = skipn (S n) l.
Proof.
  revert l. induction n as [|n IH]; intro l.
  - destruct l; reflexivity.
  - destruct l as [|x l]; [reflexivity|]. exact (IH l).
Qed.

Lemma lastn_length (n : nat) (l : list Q) : length (lastn n l) = Nat.min n (length l).
Proof. unfold lastn. rewrite length_skipn. lia. Qed.

Lemma lastn_0 (l : list Q) : lastn 0 l = [].
Proof.
  unfold lastn. rewrite Nat.sub_0_r.
  apply length_zero_iff_nil. rewrite length_skipn. lia.
Qed.

Lemma push_window_lastn (w : nat) (pre : list Q) (x : Q) :
  push_window w (lastn w pre) x = lastn w (pre ++ [x]).
Proof.
  destruct w as [|w].
  { rewrite !lastn_0. reflexivity. }
  unfold push_window.
  rewrite length_app, lastn_length. simpl length.
  unfold lastn. rewrite length_app. simpl length.
  destruct (S w <? Nat.min (S w) (length pre) + 1)%nat eqn:E.
  - apply Nat.ltb_lt in E.
    assert (Hle : (S w <= length pre)%nat) by lia.
    rewrite skipn_app.
    replace (length pre + 1 - S w - length pre)%nat with 0%nat by lia.
    replace (length pre + 1 - S w)%nat with (S (length pre - S w)) by lia.
    change (skipn 0 [x]) with [x].
    rewrite <- tl_skipn.
    destruct (skipn (length pre - S w) pre) eqn:Es; [|reflexivity].
    assert (Hl := length_skipn (length pre - S w) pre).
    rewrite Es in Hl. simpl in Hl. lia.
  - apply Nat.ltb_ge in E.
    assert (Hlt : (length pre < S w)%nat) by lia.
    replace (length pre - S w)%nat with 0%nat by lia.
    replace (length pre + 1 - S w)%nat with 0%nat by lia.
    reflexivity.
Qed.

Lemma rolling_from_length (w : nat) (f : list Q -> option Q) (xs buf : list Q) :
  length (rolling_from w f buf xs) = length xs.
Proof.
  revert buf. induction xs as [|x xs IH]; intro buf; simpl; [reflexivity|].
  now rewrite IH.
Qed.

Lemma rolling_from_nth (w : nat) (f : list Q -> option Q) (xs pre : list Q) (i : nat) :
  (i < length xs)%nat ->
  nth_error (rolling_from w f (lastn w pre) xs) i =
  Some (let b := lastn w (pre ++ firstn (S i) xs) in
        if (length b =? w)%nat then f b else None).
Proof.
  revert pre i. induction xs as [|x xs IH]; intros pre i Hi; simpl in Hi; [lia|].
  cbn [rolling_from]. rewrite push_window_lastn.
  destruct i as [|i].
  - reflexivity.
  - cbn [nth_error]. rewrite IH by lia.
    cbn [firstn]. now rewrite <- app_assoc.
Qed.

Lemma lastn_firstn_window (w i : nat) (xs : list Q) :
  (i < length xs)%nat -> (w <= S i)%nat ->
  lastn w (firstn (S i) xs) = inclusive_window w i xs.
Proof.
  intros Hi Hw. unfold lastn, inclusive_window.
  rewrite length_firstn.
  replace (Nat.min (S i) (length xs)) with (S i) by lia.
  rewrite firstn_skipn_comm.
  f_equal. f_equal. lia.
Qed.

Lemma inclusive_window_length (w i : nat) (xs : list Q) :
  (i < length xs)%nat -> (w <= S i)%nat ->
  length (inclusive_window w i xs) = w.
Proof.
  intros Hi Hw. unfold inclusive_window.
  rewrite length_firstn, length_skipn. lia.
Qed.

(** The rolling quantile, by position: NaN on the first [window - 1]
    positions, afterwards the quantile of the [window] values ending at the
    position itself. *)
Lemma rolling_quantile_nth (w : nat) (q : Q) (xs : list Q) (i : nat) :
  (i < length xs)%nat ->
  nth_error (rolling_quantile w q xs) i =
  Some (if (S i <? w)%nat then None
        else quantile_linear q (inclusive_window w i xs)).
Proof.
  intro Hi. unfold rolling_quantile.
  change (@nil Q) with (lastn w []) at 1.
  rewrite rolling_from_nth by exact Hi.
  cbn [app]. cbv zeta.
  rewrite lastn_length, length_firstn.
  replace (Nat.min (S i) (length xs)) with (S i) by lia.
  destruct (S i <? w)%nat eqn:E.
  - apply Nat.ltb_lt in E.
    replace (Nat.min w (S i) =? w)%nat with false; [reflexivity|].
    symmetry. apply Nat.eqb_neq. lia.
  - apply Nat.ltb_ge in E.
    replace (Nat.min w (S i) =? w)%nat with true
      by (symmetry; apply Nat.eqb_eq; lia).
    now rewrite lastn_firstn_window.
Qed.

(** ** The ordered window *)

Lemma insert_sorted_length (x : Q) (l : list Q) :
  length (insert_sorted x l) = S (length l).
Proof.
  induction l as [|y l IH]; simpl; [reflexivity|].
  destruct (Qle_bool x y); simpl; [reflexivity | now rewrite IH].
Qed.

Lemma sort_window_length (l : list Q) : length (sort_window l) = length l.
Proof.
  induction l as [|x l IH]; simpl; [reflexivity|].
  now rewrite insert_sorted_length, IH.
Qed.

Lemma insert_sorted_Forall (P : Q -> Prop) (x : Q) (l : list Q) :
  P x -> Forall P l -> Forall P (insert_sorted x l).
Proof.
  intros Hx Hl. induction Hl as [|y l Hy Hl IH]; simpl.
  - constructor; [exact Hx | constructor].
  - destruct (Qle_bool x y); repeat constructor; assumption.
Qed.

Lemma insert_sorted_sorted (x : Q) (l : list Q) :
  StronglySorted Qle l -> StronglySorted Qle (insert_sorted x l).
Proof.
  induction 1 as [|y l Hs IH Hall]; simpl.
  - repeat constructor.
  - destruct (Qle_bool x y) eqn:E.
    + apply Qle_bool_iff in E.
      constructor; [constructor; assumption|].
      constructor; [exact E|].
      eapply Forall_impl; [|exact Hall].
      intros z Hz. apply Qle_trans with y; assumption.
    + assert (Hyx : y <= x).
      { apply Qlt_le_weak, Qnot_le_lt. intro H.
        apply Qle_bool_iff in H. congruence. }
      constructor; [exact IH|].
      apply insert_sorted_Forall; assumption.
Qed.

Lemma sort_window_sorted (l : list Q) : StronglySorted Qle (sort_window l).
Proof.
  induction l as [|x l IH]; simpl; [constructor|].
  now apply insert_sorted_sorted.
Qed.

Lemma sorted_nth_le (s : list Q) (i j : nat) :
  StronglySorted Qle s -> (i <= j)%nat -> (j < length s)%nat ->
  nth i s 0 <= nth j s 0.
Proof.
  intro Hs. revert i j.
  induction Hs as [|x s Hs IH Hall]; intros i j Hij Hj; simpl in Hj; [lia|].
  destruct i as [|i], j as [|j]; simpl; try lia.
  - apply Qle_refl.
  - rewrite Forall_forall in Hall. apply Hall, nth_In. lia.
  - apply IH; lia.
Qed.

(** ** Interpolated ranks are monotone *)

Section Interpolate.

Variable s : list Q.
Hypothesis s_sorted : StronglySorted Qle s.

Lemma floor_in_range (h : Q) :
  0 <= h -> h <= inject_Z (Z.of_nat (length s)) - 1 ->
  (0 <= Qfloor h)%Z /\ (Z.to_nat (Qfloor h) < length s)%nat.
Proof.
  intros H0 Hn.
  assert (Hf : (0 <= Qfloor h)%Z).
  { change 0%Z with (Qfloor 0). now apply Qfloor_resp_le. }
  split; [exact Hf|].
  assert (Hle := Qfloor_le h).
  assert (Hlt : inject_Z (Qfloor h) < inject_Z (Z.of_nat (length s))) by lra.
  rewrite <- Zlt_Qlt in Hlt. lia.
Qed.

Lemma floor_succ_in_range (h : Q) :
  0 <= h -> h <= inject_Z (Z.of_nat (length s)) - 1 -> ~ h == inject_Z (Qfloor h) ->
  (S (Z.to_nat (Qfloor h)) < length s)%nat.
Proof.
  intros H0 Hn Hne.
  destruct (floor_in_range h H0 Hn) as [Hf _].
  assert (Hle := Qfloor_le h).
  assert (Hlt : inject_Z (Qfloor h) < inject_Z (Z.of_nat (length s)) - 1) by lra.
  assert (Hlt' : inject_Z (Qfloor h + 1) < inject_Z (Z.of_nat (length s))).
  { rewrite inject_Z_plus. change (inject_Z 1) with 1. lra. }
  rewrite <- Zlt_Qlt in Hlt'. lia.
Qed.

Lemma interpolate_lower (h : Q) :
  0 <= h -> h <= inject_Z (Z.of_nat (length s)) - 1 ->
  nth (Z.to_nat (Qfloor h)) s 0 <= interpolate s h.
Proof.
  intros H0 Hn. unfold interpolate. cbv zeta.
  destruct (Qeq_bool h (inject_Z (Qfloor h))) eqn:E; [apply Qle_refl|].
  assert (Hne : ~ h == inject_Z (Qfloor h)).
  { intro H. apply Qeq_bool_iff in H. congruence. }
  assert (Hs := floor_succ_in_range h H0 Hn Hne).
  assert (Hd : nth (Z.to_nat (Qfloor h)) s 0 <= nth (S (Z.to_nat (Qfloor h))) s 0)
    by (apply sorted_nth_le; [exact s_sorted | lia | exact Hs]).
  assert (Hfr := Qfloor_le h).
  nra.
Qed.

Lemma interpolate_upper (h : Q) :
  0 <= h -> h <= inject_Z (Z.of_nat (length s)) - 1 -> ~ h == inject_Z (Qfloor h) ->
  interpolate s h <= nth (S (Z.to_nat (Qfloor h))) s 0.
Proof.
  intros H0 Hn Hne. unfold interpolate. cbv zeta.
  destruct (Qeq_bool h (inject_Z (Qfloor h))) eqn:E.
  { apply Qeq_bool_iff in E. contradiction. }
  assert (Hs := floor_succ_in_range h H0 Hn Hne).
  assert (Hd : nth (Z.to_nat (Qfloor h)) s 0 <= nth (S (Z.to_nat (Qfloor h))) s 0)
    by (apply sorted_nth_le; [exact s_sorted | lia | exact Hs]).
  assert (Hfr := Qfloor_le h).
  assert (Hfr' := Qlt_floor h).
  rewrite inject_Z_plus in Hfr'. change (inject_Z 1) with 1 in Hfr'.
  nra.
Qed.

Lemma interpolate_integer (h : Q) :
  h == inject_Z (Qfloor h) -> interpolate s h = nth (Z.to_nat (Qfloor h)) s 0.
Proof.
  intro H. unfold interpolate. cbv zeta.
  apply Qeq_bool_iff in H. now rewrite H.
Qed.

Lemma interpolate_monotone (h1 h2 : Q) :
  0 <= h1 -> h1 <= h2 -> h2 <= inject_Z (Z.of_nat (length s)) - 1 ->
  interpolate s h1 <= interpolate s h2.
Proof.
  intros H0 H12 Hn.
  assert (H0' : 0 <= h2) by lra.
  assert (Hn' : h1 <= inject_Z (Z.of_nat (length s)) - 1) by lra.
  destruct (floor_in_range h1 H0 Hn') as [Hf1 Hr1].
  destruct (floor_in_range h2 H0' Hn) as [Hf2 Hr2].
  assert (Hfl : (Qfloor h1 <= Qfloor h2)%Z) by now apply Qfloor_resp_le.
  assert (Hlow2 := interpolate_lower h2 H0' Hn).
  destruct (Z.eq_dec (Qfloor h1) (Qfloor h2)) as [Heq | Hneq].
  - (* same segment *)
    destruct (Qeq_dec h1 (inject_Z (Qfloor h1))) as [Hi1 | Hi1].
    + rewrite (interpolate_integer h1 Hi1), Heq. exact Hlow2.
    + assert (Hi2 : ~ h2 == inject_Z (Qfloor h2)).
      { intro H. assert (Hle := Qfloor_le h1). rewrite Heq in Hle, Hi1.
        apply Hi1. lra. }
      assert (Hs := floor_succ_in_range h1 H0 Hn' Hi1).
      assert (Hd : nth (Z.to_nat (Qfloor h1)) s 0
                   <= nth (S (Z.to_nat (Qfloor h1))) s 0)
        by (apply sorted_nth_le; [exact s_sorted | lia | exact Hs]).
      unfold interpolate. cbv zeta.
      destruct (Qeq_bool h1 (inject_Z (Qfloor h1))) eqn:E1.
      { apply Qeq_bool_iff in E1. contradiction. }
      destruct (Qeq_bool h2 (inject_Z (Qfloor h2))) eqn:E2.
      { apply Qeq_bool_iff in E2. contradiction. }
      rewrite <- Heq.
      nra.
  - (* the second rank lies in a later segment *)
    assert (Hlt : (Z.to_nat (Qfloor h1) < Z.to_nat (Qfloor h2))%nat) by lia.
    apply Qle_trans with (nth (Z.to_nat (Qfloor h2)) s 0); [|exact Hlow2].
    destruct (Qeq_dec h1 (inject_Z (Qfloor h1))) as [Hi1 | Hi1].
    + rewrite (interpolate_integer h1 Hi1).
      apply sorted_nth_le; [exact s_sorted | lia | exact Hr2].
    + apply Qle_trans with (nth (S (Z.to_nat (Qfloor h1))) s 0).
      * now apply interpolate_upper.
      * apply sorted_nth_le; [exact s_sorted | lia | exact Hr2].
Qed.

End Interpolate.

(** The 25th percentile of a window never exceeds its 75th percentile. *)
Lemma quantile_linear_cons (q x : Q) (w : list Q) :
  quantile_linear q (x :: w) =
  Some (interpolate (sort_window (x :: w))
                    (q * (inject_Z (Z.of_nat (length (x :: w))) - 1))).
Proof. reflexivity. Qed.

Lemma quantile_25_le_75 (w : list Q) (p25 p75 : Q) :
  quantile_linear (25 # 100) w = Some p25 ->
  quantile_linear (75 # 100) w = Some p75 ->
  p25 <= p75.
Proof.
  destruct w as [|x w]; [discriminate|].
  rewrite !quantile_linear_cons.
  set (l := x :: w).
  intros H25 H75.
  apply (f_equal (fun o => match o with Some v => v | None => 0 end)) in H25, H75.
  cbv beta iota in H25, H75. subst p25 p75.
  assert (Hn : 1 <= inject_Z (Z.of_nat (length l))).
  { change 1 with (inject_Z 1). rewrite <- Zle_Qle. subst l. simpl length. lia. }
  apply interpolate_monotone.
  - apply sort_window_sorted.
  - lra.
  - lra.
  - rewrite sort_window_length. lra.
Qed.

(** ** Rows of the classified frame, by position *)

Lemma zip_rows_nth (bs : list Bar) (c1 c2 c3 c4 : list (option Q)) (i : nat)
      (b : Bar) (x1 x2 x3 x4 : option Q) :
  nth_error bs i = Some b ->
  nth_error c1 i = Some x1 -> nth_error c2 i = Some x2 ->
  nth_error c3 i = Some x3 -> nth_error c4 i = Some x4 ->
  nth_error (zip_rows bs c1 c2 c3 c4) i = Some (classify_row b x1 x2 x3 x4).
Proof.
  revert c1 c2 c3 c4 i.
  induction bs as [|b0 bs IH]; intros c1 c2 c3 c4 i Hb H1 H2 H3 H4.
  - destruct i; discriminate.
  - destruct c1 as [|y1 c1]; [destruct i; discriminate|].
    destruct c2 as [|y2 c2]; [destruct i; discriminate|].
    destruct c3 as [|y3 c3]; [destruct i; discriminate|].
    destruct c4 as [|y4 c4]; [destruct i; discriminate|].
    destruct i as [|i]; simpl in *.
    + congruence.
    + now apply IH.
Qed.

Lemma zip_rows_length_le (bs : list Bar) (c1 c2 c3 c4 : list (option Q)) :
  (length (zip_rows bs c1 c2 c3 c4) <= length bs)%nat.
Proof.
  revert c1 c2 c3 c4.
  induction bs as [|b0 bs IH]; intros c1 c2 c3 c4; simpl; [lia|].
  destruct c1, c2, c3, c4; simpl; try lia.
  specialize (IH c1 c2 c3 c4). lia.
Qed.

Lemma detect_nth (df : list Bar) (lookback i : nat) (b : Bar) :
  nth_error df i = Some b ->
  nth_error (detect_vpa_anomalies df lookback) i =
  Some (classify_row b
          (percentile_at lookback (75 # 100) (map spread_of df) i)
          (percentile_at lookback (25 # 100) (map spread_of df) i)
          (percentile_at lookback (25 # 100) (map Volume df) i)
          (percentile_at lookback (75 # 100) (map Volume df) i)).
Proof.
  intro Hb.
  assert (Hi : (i < length df)%nat) by (apply nth_error_Some; congruence).
  unfold detect_vpa_anomalies.
  apply zip_rows_nth; [exact Hb | | | | ];
    apply rolling_quantile_nth; now rewrite length_map.
Qed.

Lemma detect_length (df : list Bar) (lookback : nat) :
  length (detect_vpa_anomalies df lookback) = length df.
Proof.
  apply Nat.le_antisymm.
  - apply zip_rows_length_le.
  - destruct (Nat.le_gt_cases (length df) (length (detect_vpa_anomalies df lookback)))
      as [H | H]; [exact H | exfalso].
    destruct (nth_error df (length (detect_vpa_anomalies df lookback))) as [b|] eqn:Eb.
    + apply (detect_nth df lookback) in Eb.
      assert (nth_error (detect_vpa_anomalies df lookback)
                        (length (detect_vpa_anomalies df lookback)) = None)
        by (apply nth_error_None; lia).
      congruence.
    + apply nth_error_None in Eb. lia.
Qed.

Lemma detect_nth_inv (df : list Bar) (lookback i : nat) (r : Row) :
  nth_error (detect_vpa_anomalies df lookback) i = Some r ->
  exists b, nth_error df i = Some b /\
    r = classify_row b
          (percentile_at lookback (75 # 100) (map spread_of df) i)
          (percentile_at lookback (25 # 100) (map spread_of df) i)
          (percentile_at lookback (25 # 100) (map Volume df) i)
          (percentile_at lookback (75 # 100) (map Volume df) i).
Proof.
  intro Hr.
  assert (Hi : (i < length df)%nat).
  { rewrite <- (detect_length df lookback). apply nth_error_Some. congruence. }
  destruct (nth_error df i) as [b|] eqn:Eb.
  - exists b. split; [reflexivity|].
    rewrite (detect_nth df lookback i b Eb) in Hr. congruence.
  - apply nth_error_None in Eb. lia.
Qed.

(** The window at position [i] ends with the observation at [i] itself. *)
Lemma inclusive_window_last (w i : nat) (xs : list Q) :
  (0 < w)%nat -> (w <= S i)%nat ->
  nth_error (inclusive_window w i xs) (w - 1) = nth_error xs i.
Proof.
  intros Hw Hi. unfold inclusive_window.
  rewrite nth_error_firstn.
  replace (w - 1 <? w)%nat with true by (symmetry; apply Nat.ltb_lt; lia).
  rewrite nth_error_skipn. f_equal. lia.
Qed.

(** ** Regime flags *)

Lemma percentile_at_early (lookback : nat) (q : Q) (xs : list Q) (i : nat) :
  (S i < lookback)%nat -> percentile_at lookback q xs i = None.
Proof.
  intro H. unfold percentile_at.
  now replace (S i <? lookback)%nat with true by (symmetry; apply Nat.ltb_lt; lia).
Qed.

Lemma percentile_at_full (lookback : nat) (q : Q) (xs : list Q) (i : nat) :
  (lookback <= S i)%nat ->
  percentile_at lookback q xs i = quantile_linear q (inclusive_window lookback i xs).
Proof.
  intro H. unfold percentile_at.
  now replace (S i <? lookback)%nat with false by (symmetry; apply Nat.ltb_ge; lia).
Qed.

Lemma percentile_at_ordered (lookback : nat) (xs : list Q) (i : nat) (p25 p75 : Q) :
  percentile_at lookback (25 # 100) xs i = Some p25 ->
  percentile_at lookback (75 # 100) xs i = Some p75 ->
  p25 <= p75.
Proof.
  unfold percentile_at. destruct (S i <? lookback)%nat; [discriminate|].
  apply quantile_25_le_75.
Qed.

(** A value is never above the 75th and below the 25th percentile of one
    window. *)
Lemma above_below_exclusive (lookback : nat) (xs : list Q) (i : nat) (x : Q) :
  gt_cell x (percentile_at lookback (75 # 100) xs i)
  && lt_cell x (percentile_at lookback (25 # 100) xs i) = false.
Proof.
  destruct (percentile_at lookback (75 # 100) xs i) as [p75|] eqn:E75; [|reflexivity].
  destruct (percentile_at lookback (25 # 100) xs i) as [p25|] eqn:E25;
    [|apply andb_false_r].
  assert (Hle := percentile_at_ordered lookback xs i p25 p75 E25 E75).
  simpl. apply andb_false_iff.
  destruct (Qltb p75 x) eqn:Ea; [right | now left].
  apply Qltb_lt in Ea.
  destruct (Qltb x p25) eqn:Eb; [|reflexivity].
  apply Qltb_lt in Eb. lra.
Qed.

Lemma up_down_exclusive (x : Q) : Qltb 0 x && Qltb x 0 = false.
Proof.
  apply andb_false_iff.
  destruct (Qltb 0 x) eqn:Ea; [right | now left].
  apply Qltb_lt in Ea.
  destruct (Qltb x 0) eqn:Eb; [|reflexivity].
  apply Qltb_lt in Eb. lra.
Qed.

Lemma six_categories_exclusive (up down wide narrow low high : bool) :
  up && down = false -> wide && narrow = false -> high && low = false ->
  (length (filter (fun b : bool => b)
     [up && wide && low; down && wide && low;
      up && narrow && high; down && narrow && high;
      up && wide && high; down && wide && high]) <= 1)%nat.
Proof.
  destruct up, down, wide, narrow, low, high; simpl; intros; try discriminate; lia.
Qed.

(** C1 (amended).  The four regime flags of bar [i] are strict comparisons
    of the bar's own spread and volume with the 25th/75th
    linear-interpolation percentiles of the [lookback] bars ending at and
    including bar [i], for every [i >= lookback - 1]; on the first
    [lookback - 1] bars the percentile cells are NaN and the four flags are
    [False]. *)
Theorem regime_flags_inclusive_window (df : list Bar) (lookback i : nat) (r : Row) :
  nth_error (detect_vpa_anomalies df lookback) i = Some r ->
  exists b, nth_error df i = Some b /\ bar r = b /\
    ((S i < lookback)%nat ->
       Spread_p75 r = None /\ Spread_p25 r = None /\
       Vol_p_low r = None /\ Vol_p_high r = None /\
       regime_flags r = (Some false, Some false, Some false, Some false)) /\
    ((lookback <= S i)%nat ->
       let spreads := inclusive_window lookback i (map spread_of df) in
       let volumes := inclusive_window lookback i (map Volume df) in
       WideSpread r = gt_cell (spread_of b) (quantile_linear (75 # 100) spreads) /\
       NarrowSpread r = lt_cell (spread_of b) (quantile_linear (25 # 100) spreads) /\
       LowVol r = lt_cell (Volume b) (quantile_linear (25 # 100) volumes) /\
       HighVol r = gt_cell (Volume b) (quantile_linear (75 # 100) volumes) /\
       length spreads = lookback /\ length volumes = lookback /\
       ((0 < lookback)%nat ->
          nth_error spreads (lookback - 1) = Some (spread_of b) /\
          nth_error volumes (lookback - 1) = Some (Volume b))).
Proof.
  intro Hr.
  destruct (detect_nth_inv df lookback i r Hr) as [b [Hb ->]].
  assert (Hi : (i < length df)%nat) by (apply nth_error_Some; congruence).
  exists b. split; [exact Hb|]. split; [reflexivity|]. split.
  - intro Hearly. cbn.
    rewrite !percentile_at_early by exact Hearly.
    repeat split; reflexivity.
  - intro Hfull. cbn.
    rewrite !percentile_at_full by exact Hfull.
    repeat split; try reflexivity.
    + apply inclusive_window_length; [now rewrite length_map | exact Hfull].
    + apply inclusive_window_length; [now rewrite length_map | exact Hfull].
    + rewrite inclusive_window_last by assumption.
      rewrite nth_error_map, Hb. reflexivity.
    + rewrite inclusive_window_last by assumption.
      rewrite nth_error_map, Hb. reflexivity.
Qed.

Lemma regime_flags_inclusive_window_witness :
  exists b, nth_error df_spreads 2 = Some b /\ bar row_spreads_2 = b /\
            WideSpread row_spreads_2
            = gt_cell (spread_of b)
                (quantile_linear (75 # 100)
                   (inclusive_window 2 2 (map spread_of df_spreads))).
Proof.
  destruct (regime_flags_inclusive_window df_spreads 2 2 row_spreads_2)
    as [b [Hb [Hbar [_ Hfull]]]].
  - vm_compute. reflexivity.
  - exists b. split; [exact Hb|]. split; [exact Hbar|].
    assert (Hle : (2 <= 3)%nat) by lia.
    destruct (Hfull Hle) as [Hw _]. exact Hw.
Defined.

(** C1, as stated, fails: on spreads 5, 1, 3 with [lookback = 2] the code
    flags bar 2 as WideSpread (3 > 2.5, the 75th percentile of bars 1..2)
    where the trailing window of bars 0..1 gives 3 > 4, false; and bars 0
    and 1 carry boolean flags (bar 1 is NarrowSpread), not nulls. *)
Lemma regime_flags_trailing_window_counterexample :
  map regime_flags (detect_vpa_anomalies df_spreads 2) =
    [ (Some false, Some false, Some false, Some false);
      (Some false, Some true, Some false, Some false);
      (Some true, Some false, Some false, Some false) ] /\
  map (spec_regime_flags df_spreads 2) [0; 1; 2]%nat =
    [ all_undefined; all_undefined;
      (Some false, Some false, Some false, Some false) ] /\
  ~ (forall df lookback i r,
       nth_error (detect_vpa_anomalies df lookback) i = Some r ->
       regime_flags r = spec_regime_flags df lookback i).
Proof.
  split; [vm_compute; reflexivity|].
  split; [vm_compute; reflexivity|].
  intro H.
  assert (Hn : nth_error (detect_vpa_anomalies df_spreads 2) 2 = Some row_spreads_2)
    by (vm_compute; reflexivity).
  specialize (H df_spreads 2%nat 2%nat row_spreads_2 Hn).
  vm_compute in H. discriminate.
Qed.

(** C7.  On every row of every classified frame at most one of FakeUp,
    FakeDown, AbsorbUp, AbsorbDown, ConfirmUp, ConfirmDown holds. *)
Theorem categories_mutually_exclusive (df : list Bar) (lookback : nat) (r : Row) :
  In r (detect_vpa_anomalies df lookback) -> (category_count r <= 1)%nat.
Proof.
  intro Hin.
  destruct (In_nth_error _ _ Hin) as [i Hi].
  destruct (detect_nth_inv df lookback i r Hi) as [b [_ ->]].
  unfold category_count. cbn.
  apply six_categories_exclusive.
  - apply up_down_exclusive.
  - apply above_below_exclusive.
  - apply above_below_exclusive.
Qed.

Lemma categories_mutually_exclusive_witness :
  In row_spreads_2 (detect_vpa_anomalies df_spreads 2) /\
  (category_count row_spreads_2 <= 1)%nat.
Proof.
  assert (Hin : In row_spreads_2 (detect_vpa_anomalies df_spreads 2))
    by (vm_compute; right; right; left; reflexivity).
  split; [exact Hin|].
  exact (categories_mutually_exclusive df_spreads 2 row_spreads_2 Hin).
Defined.

(** ** The simulation loop *)

Lemma last_cons_default (A : Type) (x d : A) (l : list A) :
  last (x :: l) d = last l x.
Proof.
  revert x d. induction l as [|y l IH]; intros x d; [reflexivity|].
  change (last (x :: y :: l) d) with (last (y :: l) d).
  now rewrite (IH y d), (IH y x).
Qed.

Lemma run_bars_app (hold_bars : Z) (cost : Q) (mode : Mode)
      (l r : list (SimRow * Q)) (prev : SimRow) (st : SimState) :
  run_bars hold_bars cost mode prev (l ++ r) st =
  let (st', a) := run_bars hold_bars cost mode prev l st in
  let (st'', a') := run_bars hold_bars cost mode (last (map fst l) prev) r st' in
  (st'', a ++ a').
Proof.
  revert prev st. induction l as [|[row ret] l IH]; intros prev st.
  - simpl. destruct (run_bars hold_bars cost mode prev r st); reflexivity.
  - cbn [app run_bars].
    destruct (bar_step hold_bars cost mode prev row ret st) as [st1 a1].
    rewrite IH.
    destruct (run_bars hold_bars cost mode row l st1) as [st2 a2].
    cbn [map fst]. rewrite last_cons_default.
    destruct (run_bars hold_bars cost mode (last (map fst l) row) r st2);
      reflexivity.
Qed.

Lemma run_bars_actions_length (hold_bars : Z) (cost : Q) (mode : Mode)
      (rest : list (SimRow * Q)) (prev : SimRow) (st : SimState) :
  length (snd (run_bars hold_bars cost mode prev rest st)) = length rest.
Proof.
  revert prev st. induction rest as [|[row ret] rest IH]; intros prev st;
    [reflexivity|].
  cbn [run_bars].
  destruct (bar_step hold_bars cost mode prev row ret st) as [st1 a1].
  specialize (IH row st1).
  destruct (run_bars hold_bars cost mode row rest st1). simpl in *. lia.
Qed.

(** A property of the loop variables and of the decisions taken so far
    that every iteration preserves holds when the loop ends. *)
Section LoopInvariant.

Variables (hold_bars : Z) (cost : Q) (mode : Mode) (names : list Z).
Variable P : nat -> SimState -> list Action -> Prop.

Hypothesis step_preserves :
  forall k prev row ret st acts,
    P k st acts ->
    nth_error names (S k) = Some (name row) ->
    P (S k) (fst (bar_step hold_bars cost mode prev row ret st))
      (acts ++ [snd (bar_step hold_bars cost mode prev row ret st)]).

Lemma run_bars_invariant (rest : list (SimRow * Q)) :
  forall k prev st acts,
    P k st acts ->
    (forall j rr, nth_error rest j = Some rr ->
                  nth_error names (S k + j) = Some (name (fst rr))) ->
    P (k + length rest)
      (fst (run_bars hold_bars cost mode prev rest st))
      (acts ++ snd (run_bars hold_bars cost mode prev rest st)).
Proof.
  induction rest as [|[row ret] rest IH]; intros k prev st acts HP Hnames.
  - simpl. now rewrite Nat.add_0_r, app_nil_r.
  - cbn [run_bars].
    assert (Hrow : nth_error names (S k) = Some (name row)).
    { specialize (Hnames 0%nat (row, ret) eq_refl).
      now rewrite Nat.add_0_r in Hnames. }
    assert (HP' := step_preserves k prev row ret st acts HP Hrow).
    destruct (bar_step hold_bars cost mode prev row ret st) as [st1 a1].
    cbn [fst snd] in HP'.
    specialize (IH (S k) row st1 (acts ++ [a1]) HP').
    destruct (run_bars hold_bars cost mode row rest st1) as [st2 a2].
    cbn [fst snd length] in *.
    replace (k + S (length rest))%nat with (S k + length rest)%nat by lia.
    replace (acts ++ a1 :: a2) with ((acts ++ [a1]) ++ a2)
      by (now rewrite <- app_assoc).
    apply IH.
    intros j rr Hj. specialize (Hnames (S j) rr Hj).
    now replace (S (S k) + j)%nat with (S k + S j)%nat by lia.
Qed.

Lemma with_returns_nth (df : list SimRow) (j : nat) (rr : SimRow * Q) :
  nth_error (with_returns df) j = Some rr -> nth_error df j = Some (fst rr).
Proof.
  unfold with_returns.
  generalize (fillna 0 (pct_change (map close df))). revert j.
  induction df as [|r df IH]; intros j l H.
  - destruct j; discriminate.
  - destruct l as [|x l]; [destruct j; discriminate|].
    destruct j as [|j]; simpl in *.
    + now injection H as <-.
    + now apply (IH j l).
Qed.

Lemma with_returns_length (df : list SimRow) :
  length (with_returns df) = length df.
Proof.
  unfold with_returns. rewrite length_combine.
  unfold fillna, pct_change. rewrite length_map.
  destruct df as [|r df]; [reflexivity|].
  cbn [map length]. rewrite length_map, length_combine.
  cbn [length]. rewrite length_map. lia.
Qed.

Lemma simulate_invariant (df : list SimRow) (initial_equity : Q) :
  names = map name df ->
  P 0 (initial_state initial_equity) [] ->
  P (length df - 1)
    (fst (simulate df hold_bars cost initial_equity mode))
    (snd (simulate df hold_bars cost initial_equity mode)).
Proof.
  intros Hn H0. unfold simulate.
  assert (Hlen := with_returns_length df).
  assert (Hnth := with_returns_nth df).
  destruct (with_returns df) as [|[row0 ret0] rest] eqn:E.
  - destruct df; [exact H0 | discriminate].
  - replace (length df - 1)%nat with (0 + length rest)%nat
      by (rewrite <- Hlen; simpl; lia).
    apply (run_bars_invariant rest 0%nat row0 (initial_state initial_equity) [] H0).
    intros j rr Hj.
    specialize (Hnth (S j) rr Hj).
    rewrite Hn, nth_error_map. cbn [Nat.add]. now rewrite Hnth.
Qed.

End LoopInvariant.

(** ** One iteration, field by field *)

Lemma bar_step_spec (hold_bars : Z) (cost : Q) (mode : Mode)
      (prev row : SimRow) (ret : Q) (st : SimState) :
  let st' := fst (bar_step hold_bars cost mode prev row ret st) in
  let ex := exit_due hold_bars st in
  let lg := takes_long hold_bars mode prev st in
  let sh := takes_short hold_bars mode prev st in
  snd (bar_step hold_bars cost mode prev row ret st)
    = decision hold_bars mode prev st /\
  position st' = (if lg then 1 else if sh then -1
                  else if ex then 0 else position st)%Z /\
  held st' = (if lg || sh then 0 else if ex then 0
              else if (position st =? 0)%Z then held st else held st + 1)%Z /\
  entry st' = (if lg || sh then Some (name row) else entry st) /\
  trades st' = (if ex
                then trades st ++
                     [mkTrade (entry st) (name row)
                        (if (position st =? 1)%Z then LONG else SHORT)
                        (held st + 1)]
                else trades st) /\
  exists pnl, equity st' = equity st ++ [last (equity st) 0 * (1 + pnl)] /\
              (position st = 0%Z -> lg = false -> sh = false -> pnl = 0).
Proof.
  destruct st as [pos h en tr eq].
  unfold bar_step, accrue, exit_check, entry_check, update_equity,
    decision, takes_long, takes_short, flat_for_entry, exit_due.
  cbn [position held entry trades equity].
  destruct (pos =? 0)%Z eqn:Epos;
    destruct (hold_bars <=? h + 1)%Z eqn:Eh;
    destruct (get_flag (signal_long prev) && permits_long mode) eqn:El;
    destruct (get_flag (signal_short prev) && permits_short mode) eqn:Es;
    cbn; rewrite ?Epos, ?Eh, ?El, ?Es; cbn; rewrite ?Epos, ?El, ?Es; cbn;
    (repeat split; try reflexivity);
    eexists; (split; [reflexivity|]);
    intros Hp Hl Hs; try discriminate; try reflexivity;
    apply Z.eqb_neq in Epos; contradiction.
Qed.

(** ** Fixed-horizon exits *)

Lemma completed_trade_later (names : list Z) (hold_bars : Z) (k : nat) (t : Trade) :
  completed_trade names hold_bars k t -> completed_trade names hold_bars (S k) t.
Proof.
  intros [Hb [e [x [ed [He [Hne [Hnx [Hx Hk]]]]]]]].
  split; [exact Hb|]. exists e, x, ed. repeat split; try assumption. lia.
Qed.

Lemma hold_invariant_step (names : list Z) (hold_bars : Z) (cost : Q) (mode : Mode) :
  (1 <= hold_bars)%Z ->
  forall k prev row ret st acts,
    hold_invariant names hold_bars k st acts ->
    nth_error names (S k) = Some (name row) ->
    hold_invariant names hold_bars (S k)
      (fst (bar_step hold_bars cost mode prev row ret st))
      (acts ++ [snd (bar_step hold_bars cost mode prev row ret st)]).
Proof.
  intros Hh k prev row ret st acts [Htr Hopen] Hrow.
  destruct (bar_step_spec hold_bars cost mode prev row ret st)
    as [_ [Hpos [Hheld [Hentry [Htrades _]]]]].
  cbv zeta in *.
  set (st' := fst (bar_step hold_bars cost mode prev row ret st)) in *.
  unfold hold_invariant, open_position in *.
  assert (Hex : exit_due hold_bars st = true ->
                position st <> 0%Z /\ (held st + 1 = hold_bars)%Z).
  { unfold exit_due. intro H. apply andb_prop in H as [H1 H2].
    apply negb_true_iff, Z.eqb_neq in H1. apply Z.leb_le in H2.
    split; [exact H1|]. destruct (Hopen H1) as [Hr _]. lia. }
  split.
  - rewrite Htrades.
    destruct (exit_due hold_bars st) eqn:Eex.
    + destruct (Hex eq_refl) as [Hp Hhd].
      destruct (Hopen Hp) as [_ [e [ed [He [Hne Hek]]]]].
      apply Forall_app. split.
      * eapply Forall_impl; [|exact Htr].
        intros t. apply completed_trade_later.
      * constructor; [|constructor].
        split; [exact Hhd|].
        exists e, (S k), ed. cbn [entry_date exit_date].
        repeat split; try assumption; lia.
    + eapply Forall_impl; [|exact Htr].
      intros t. apply completed_trade_later.
  - intro Hp'. rewrite Hpos in Hp'. rewrite Hheld, Hentry.
    destruct (takes_long hold_bars mode prev st) eqn:El;
      [|destruct (takes_short hold_bars mode prev st) eqn:Es]; cbn [orb].
    + split; [lia|]. exists (S k), (name row). repeat split; try assumption; try reflexivity; lia.
    + split; [lia|]. exists (S k), (name row). repeat split; try assumption; try reflexivity; lia.
    + destruct (exit_due hold_bars st) eqn:Eex; [contradiction|].
      destruct (Hopen Hp') as [Hr [e [ed [He [Hne Hek]]]]].
      assert (Hz : (position st =? 0)%Z = false) by now apply Z.eqb_neq.
      rewrite Hz.
      unfold exit_due in Eex. rewrite Hz in Eex. cbn [negb andb] in Eex.
      apply Z.leb_gt in Eex.
      split; [lia|]. exists e, ed. repeat split; try assumption. lia.
Qed.

(** C2.  With a holding period of at least one bar, every trade record has
    [bars_held = hold_bars], and its exit bar lies exactly [hold_bars]
    positions after its entry bar (so at least that far). *)
Theorem trades_held_exactly (df : list SimRow) (hold_bars : Z)
        (cost initial_equity : Q) (mode : Mode) (t : Trade) :
  (1 <= hold_bars)%Z ->
  In t (snd (backtest_vpa df hold_bars cost initial_equity mode)) ->
  bars_held t = hold_bars /\
  exists e x ed,
    entry_date t = Some ed /\
    nth_error (map name df) e = Some ed /\
    nth_error (map name df) x = Some (exit_date t) /\
    (x = e + Z.to_nat hold_bars)%nat /\
    (Z.of_nat x >= Z.of_nat e + hold_bars)%Z /\
    (x < length df)%nat.
Proof.
  intros Hh Hin.
  assert (Hinv := simulate_invariant hold_bars cost mode (map name df)
                    (hold_invariant (map name df) hold_bars)
                    (hold_invariant_step (map name df) hold_bars cost mode Hh)
                    df initial_equity eq_refl).
  destruct Hinv as [Htr _].
  { split; [constructor|]. intro H. now elim H. }
  unfold backtest_vpa in Hin. cbn [snd] in Hin.
  rewrite Forall_forall in Htr.
  destruct (Htr t Hin) as [Hb [e [x [ed [He [Hne [Hnx [Hx Hk]]]]]]]].
  split; [exact Hb|].
  exists e, x, ed. repeat split; try assumption.
  - lia.
  - assert (x < length (map name df))%nat by (apply nth_error_Some; congruence).
    now rewrite length_map in H.
Qed.

Lemma trades_held_exactly_witness :
  bars_held (mkTrade (Some 2%Z) 4 SHORT 2) = 2%Z /\
  exists e x ed,
    entry_date (mkTrade (Some 2%Z) 4 SHORT 2) = Some ed /\
    nth_error (map name df_long_then_short) e = Some ed /\
    nth_error (map name df_long_then_short) x = Some 4%Z /\
    (x = e + Z.to_nat 2)%nat /\
    (Z.of_nat x >= Z.of_nat e + 2)%Z /\
    (x < length df_long_then_short)%nat.
Proof.
  apply (trades_held_exactly df_long_then_short 2 (1 # 1000) 10000 short_only
           (mkTrade (Some 2%Z) 4 SHORT 2)).
  - lia.
  - vm_compute. left. reflexivity.
Defined.

(** ** Round trips and the equity curve *)




Lemma equity_invariant_step (names : list Z) (initial_equity : Q)
      (hold_bars : Z) (cost : Q) (mode : Mode) :
  forall k prev row ret st acts,
    equity_invariant initial_equity k st acts ->
    nth_error names (S k) = Some (name row) ->
    equity_invariant initial_equity (S k)
      (fst (bar_step hold_bars cost mode prev row ret st))
      (acts ++ [snd (bar_step hold_bars cost mode prev row ret st)]).
Proof.
  intros k prev row ret st acts [Hlen [Hacts Hhd]] _.
  destruct (bar_step_spec hold_bars cost mode prev row ret st)
    as [_ [_ [_ [_ [_ [pnl [Heq _]]]]]]].
  cbv zeta in Heq.
  unfold equity_invariant. rewrite Heq, !length_app. cbn [length].
  repeat split; try lia.
  destruct (equity st); [discriminate | exact Hhd].
Qed.

Lemma simulate_equity_shape (df : list SimRow) (hold_bars : Z)
      (cost initial_equity : Q) (mode : Mode) :
  equity_invariant initial_equity (length df - 1)
    (fst (simulate df hold_bars cost initial_equity mode))
    (snd (simulate df hold_bars cost initial_equity mode)).
Proof.
  apply (simulate_invariant hold_bars cost mode (map name df)
           (equity_invariant initial_equity)
           (equity_invariant_step (map name df) initial_equity
              hold_bars cost mode)
           df initial_equity eq_refl).
  repeat split.
Qed.

(** C3 (amended).  [backtest_vpa] validates nothing: on every input,
    well-formed or not, it runs one iteration per bar after the first and
    returns an equity curve seeded with [initial_equity] that has one
    point per bar (a single point on an empty frame). *)
Theorem backtest_runs_unvalidated (df : list SimRow) (hold_bars : Z)
        (cost initial_equity : Q) (mode : Mode) :
  length (decisions df hold_bars cost initial_equity mode) = (length df - 1)%nat /\
  length (Equity (fst (backtest_vpa df hold_bars cost initial_equity mode)))
    = Nat.max 1 (length df) /\
  hd_error (Equity (fst (backtest_vpa df hold_bars cost initial_equity mode)))
    = Some initial_equity.
Proof.
  destruct (simulate_equity_shape df hold_bars cost initial_equity mode)
    as [Hlen [Hacts Hhd]].
  unfold decisions, backtest_vpa. cbn [fst Equity].
  repeat split; [exact Hacts | lia | exact Hhd].
Qed.

(** C3, as stated, fails: on a frame with duplicate and decreasing index
    labels and a negative initial equity, where the specified simulator
    raises before any step, the code runs every step and returns a trade
    whose exit label precedes its entry label. *)
Lemma backtest_validation_counterexample :
  well_formed_input df_malformed (-1) = false /\
  spec_backtest_vpa df_malformed 1 (1 # 1000) (-1) long_only = InputValidationError /\
  length (decisions df_malformed 1 (1 # 1000) (-1) long_only) = 3%nat /\
  snd (backtest_vpa df_malformed 1 (1 # 1000) (-1) long_only)
    = [mkTrade (Some 5%Z) 3 LONG 1] /\
  ~ (forall df hold_bars cost initial_equity mode,
       well_formed_input df initial_equity = false ->
       Accepted (backtest_vpa df hold_bars cost initial_equity mode)
       = spec_backtest_vpa df hold_bars cost initial_equity mode /\
       decisions df hold_bars cost initial_equity mode = []).
Proof.
  repeat split; try (vm_compute; reflexivity).
  intro H.
  destruct (H df_malformed 1%Z (1 # 1000) (-1) long_only) as [_ Hd];
    [vm_compute; reflexivity|].
  vm_compute in Hd. discriminate.
Qed.


(** A position entered on bar 1 and still open after the last bar leaves
    no trade record; its entry cost shows in the equity curve only. *)
Example open_position_leaves_no_trade :
  let df := [long_sig 0; plain 1; plain 2] in
  snd (backtest_vpa df 5 (1 # 1000) 10000 long_only) = [] /\
  position (fst (simulate df 5 (1 # 1000) 10000 long_only)) = 1%Z /\
  decisions df 5 (1 # 1000) 10000 long_only
  = [mkAction false (Some LONG); no_action] /\
  Forall2 Qeq (Equity (fst (backtest_vpa df 5 (1 # 1000) 10000 long_only)))
          [10000; 9990; 9990].
Proof.
  cbv zeta. repeat split.
  repeat constructor; vm_compute; reflexivity.
Qed.


(** Outside the configuration domain: with [hold_bars = 0] a position is
    closed on the bar after its entry, and the record shows one bar held. *)
Example zero_hold_exits_after_one_bar :
  snd (backtest_vpa df_short_only_signal 0 (1 # 1000) 10000 short_only)
  = [mkTrade (Some 1%Z) 2 SHORT 1].
Proof. vm_compute. reflexivity. Qed.

(** ** Signal lag *)

Lemma bar_step_lag (hold_bars : Z) (cost : Q) (mode : Mode)
      (prev1 prev2 row1 row2 : SimRow) (ret1 ret2 : Q) (st1 st2 : SimState) :
  position_state st1 = position_state st2 ->
  signals prev1 = signals prev2 ->
  name row1 = name row2 ->
  snd (bar_step hold_bars cost mode prev1 row1 ret1 st1)
  = snd (bar_step hold_bars cost mode prev2 row2 ret2 st2) /\
  position_state (fst (bar_step hold_bars cost mode prev1 row1 ret1 st1))
  = position_state (fst (bar_step hold_bars cost mode prev2 row2 ret2 st2)).
Proof.
  intros Hst Hsig Hname.
  destruct (bar_step_spec hold_bars cost mode prev1 row1 ret1 st1)
    as [Ha1 [Hp1 [Hh1 [He1 [Ht1 _]]]]].
  destruct (bar_step_spec hold_bars cost mode prev2 row2 ret2 st2)
    as [Ha2 [Hp2 [Hh2 [He2 [Ht2 _]]]]].
  cbv zeta in *.
  unfold position_state in *.
  injection Hst as Hp Hh He Ht.
  injection Hsig as Hl Hs.
  assert (Hex : exit_due hold_bars st1 = exit_due hold_bars st2)
    by (unfold exit_due; now rewrite Hp, Hh).
  assert (Hlg : takes_long hold_bars mode prev1 st1 = takes_long hold_bars mode prev2 st2)
    by (unfold takes_long, flat_for_entry; now rewrite Hex, Hp, Hl).
  assert (Hsh : takes_short hold_bars mode prev1 st1 = takes_short hold_bars mode prev2 st2)
    by (unfold takes_short, flat_for_entry; now rewrite Hex, Hp, Hl, Hs).
  split.
  - rewrite Ha1, Ha2. unfold decision. now rewrite Hex, Hlg, Hsh.
  - rewrite Hp1, Hp2, Hh1, Hh2, He1, He2, Ht1, Ht2.
    now rewrite Hex, Hlg, Hsh, Hp, Hh, He, Ht, Hname.
Qed.

Lemma run_bars_lag (hold_bars : Z) (cost : Q) (mode : Mode) (n : nat) :
  forall rest1 rest2 prev1 prev2 st1 st2,
    position_state st1 = position_state st2 ->
    firstn n (map (fun rr => name (fst rr)) rest1)
    = firstn n (map (fun rr => name (fst rr)) rest2) ->
    firstn n (map signals (prev1 :: map fst rest1))
    = firstn n (map signals (prev2 :: map fst rest2)) ->
    firstn n (snd (run_bars hold_bars cost mode prev1 rest1 st1))
    = firstn n (snd (run_bars hold_bars cost mode prev2 rest2 st2)).
Proof.
  induction n as [|n IH]; intros rest1 rest2 prev1 prev2 st1 st2 Hst Hn Hs;
    [reflexivity|].
  destruct rest1 as [|[r1 x1] t1], rest2 as [|[r2 x2] t2];
    try discriminate; [reflexivity|].
  cbn [map firstn fst] in Hn, Hs.
  injection Hn as Hname Hn.
  assert (Hsig := f_equal (hd (signals prev1)) Hs).
  apply (f_equal (@tl _)) in Hs. cbn [hd tl] in Hsig, Hs.
  destruct (bar_step_lag hold_bars cost mode prev1 prev2 r1 r2 x1 x2 st1 st2
              Hst Hsig Hname) as [Hact Hst'].
  cbn [run_bars].
  destruct (bar_step hold_bars cost mode prev1 r1 x1 st1) as [s1 a1].
  destruct (bar_step hold_bars cost mode prev2 r2 x2 st2) as [s2 a2].
  cbn [fst snd] in Hact, Hst'.
  specialize (IH t1 t2 r1 r2 s1 s2 Hst' Hn Hs).
  destruct (run_bars hold_bars cost mode r1 t1 s1) as [s1' acts1].
  destruct (run_bars hold_bars cost mode r2 t2 s2) as [s2' acts2].
  cbn [snd firstn] in *. now rewrite Hact, IH.
Qed.

Lemma with_returns_rows (df : list SimRow) : map fst (with_returns df) = df.
Proof.
  apply nth_error_ext. intro j.
  rewrite nth_error_map.
  destruct (nth_error (with_returns df) j) as [rr|] eqn:E.
  - now rewrite (with_returns_nth df j rr E).
  - apply nth_error_None in E. rewrite with_returns_length in E.
    symmetry. now apply nth_error_None.
Qed.

(** The decisions on bars [1 .. i] read the index labels up to [i] and
    the signals up to [i - 1], nothing else. *)
Lemma decisions_lag (rows1 rows2 : list SimRow) (i : nat)
      (hold_bars : Z) (cost initial_equity : Q) (mode : Mode) :
  firstn (S i) (map name rows1) = firstn (S i) (map name rows2) ->
  firstn i (map signals rows1) = firstn i (map signals rows2) ->
  firstn i (decisions rows1 hold_bars cost initial_equity mode)
  = firstn i (decisions rows2 hold_bars cost initial_equity mode).
Proof.
  intros Hn Hs. unfold decisions, simulate.
  assert (H1 := with_returns_rows rows1).
  assert (H2 := with_returns_rows rows2).
  destruct (with_returns rows1) as [|[r1 x1] t1];
    destruct (with_returns rows2) as [|[r2 x2] t2];
    cbn [map fst] in H1, H2; subst rows1 rows2.
  - reflexivity.
  - cbn in Hn. discriminate.
  - cbn in Hn. discriminate.
  - apply run_bars_lag.
    + reflexivity.
    + cbn [map firstn] in Hn. injection Hn as _ Hn.
      now rewrite !map_map in Hn.
    + exact Hs.
Qed.

(** Rows of the classified frame below position [i] depend on the bars
    below [i] only. *)
Lemma inclusive_window_ext (w j : nat) (xs ys : list Q) :
  (w <= S j)%nat ->
  (forall p, (p <= j)%nat -> nth_error xs p = nth_error ys p) ->
  inclusive_window w j xs = inclusive_window w j ys.
Proof.
  intros Hw Hext. unfold inclusive_window.
  apply nth_error_ext. intro n.
  rewrite !nth_error_firstn.
  destruct (n <? w)%nat eqn:E; [|reflexivity].
  apply Nat.ltb_lt in E.
  rewrite !nth_error_skipn. apply Hext. lia.
Qed.

Lemma percentile_at_ext (lookback : nat) (q : Q) (xs ys : list Q) (j : nat) :
  (forall p, (p <= j)%nat -> nth_error xs p = nth_error ys p) ->
  percentile_at lookback q xs j = percentile_at lookback q ys j.
Proof.
  intro Hext. unfold percentile_at.
  destruct (S j <? lookback)%nat eqn:E; [reflexivity|].
  apply Nat.ltb_ge in E.
  now rewrite (inclusive_window_ext lookback j xs ys E Hext).
Qed.

Lemma detect_prefix (df1 df2 : list Bar) (lookback i : nat) :
  length df1 = length df2 ->
  (forall j, (j < i)%nat -> nth_error df1 j = nth_error df2 j) ->
  forall j, (j < i)%nat ->
    nth_error (detect_vpa_anomalies df1 lookback) j
    = nth_error (detect_vpa_anomalies df2 lookback) j.
Proof.
  intros Hlen Hext j Hj.
  destruct (nth_error df1 j) as [b|] eqn:Eb.
  - assert (Eb2 : nth_error df2 j = Some b) by (rewrite <- Hext; assumption).
    rewrite (detect_nth df1 lookback j b Eb), (detect_nth df2 lookback j b Eb2).
    assert (Hmap : forall (f : Bar -> Q) p, (p <= j)%nat ->
                     nth_error (map f df1) p = nth_error (map f df2) p).
    { intros f p Hp. rewrite !nth_error_map, Hext by lia. reflexivity. }
    now rewrite !(percentile_at_ext lookback _ (map spread_of df1) (map spread_of df2) j
                    (Hmap spread_of)),
                !(percentile_at_ext lookback _ (map Volume df1) (map Volume df2) j
                    (Hmap Volume)).
  - assert (Eb2 : nth_error df2 j = None) by (rewrite <- Hext; assumption).
    apply nth_error_None in Eb, Eb2.
    rewrite <- (detect_length df1 lookback) in Eb.
    rewrite <- (detect_length df2 lookback) in Eb2.
    apply nth_error_None in Eb, Eb2. congruence.
Qed.

Lemma detect_bars (df : list Bar) (lookback : nat) :
  map bar (detect_vpa_anomalies df lookback) = df.
Proof.
  apply nth_error_ext. intro j. rewrite nth_error_map.
  destruct (nth_error df j) as [b|] eqn:Eb.
  - now rewrite (detect_nth df lookback j b Eb).
  - apply nth_error_None in Eb. rewrite <- (detect_length df lookback) in Eb.
    apply nth_error_None in Eb. now rewrite Eb.
Qed.

(** C5.  Changing only the OHLCV fields of bar [i] changes no position
    decision taken on bar [i] or on any earlier bar: the decisions of the
    classifier-then-simulator pipeline agree on bars [0 .. i]. *)
Theorem signal_lag (df1 df2 : list Bar) (i lookback : nat)
        (hold_bars : Z) (cost initial_equity : Q) (mode : Mode) :
  differ_only_at i df1 df2 ->
  forall j, (j <= i)%nat ->
    decision_on
      (decisions (map sim_row (detect_vpa_anomalies df1 lookback))
                 hold_bars cost initial_equity mode) j
    = decision_on
        (decisions (map sim_row (detect_vpa_anomalies df2 lookback))
                   hold_bars cost initial_equity mode) j.
Proof.
  intros [Hlen [Hother Hname]] j Hj.
  destruct j as [|j]; [reflexivity|]. cbn [decision_on].
  assert (Hnames : map bar_name df1 = map bar_name df2).
  { apply nth_error_ext. intro p. rewrite !nth_error_map.
    destruct (Nat.eq_dec p i) as [-> | Hp]; [exact Hname|].
    now rewrite (Hother p Hp). }
  assert (Hpre := decisions_lag
            (map sim_row (detect_vpa_anomalies df1 lookback))
            (map sim_row (detect_vpa_anomalies df2 lookback))
            i hold_bars cost initial_equity mode).
  assert (Hd : forall df, map name (map sim_row (detect_vpa_anomalies df lookback))
                          = map bar_name df).
  { intro df. rewrite map_map.
    rewrite <- (detect_bars df lookback) at 2. now rewrite map_map. }
  rewrite !Hd, Hnames in Hpre. specialize (Hpre eq_refl).
  assert (Hrows : firstn i (detect_vpa_anomalies df1 lookback)
                  = firstn i (detect_vpa_anomalies df2 lookback)).
  { apply nth_error_ext. intro p. rewrite !nth_error_firstn.
    destruct (p <? i)%nat eqn:E; [|reflexivity].
    apply Nat.ltb_lt in E.
    apply (detect_prefix df1 df2 lookback i); [exact Hlen | | exact E].
    intros q Hq. apply Hother. lia. }
  rewrite !map_map, !firstn_map, Hrows in Hpre. specialize (Hpre eq_refl).
  assert (Hlt : (j < i)%nat) by lia.
  apply (f_equal (fun l => nth_error l j)) in Hpre.
  rewrite !nth_error_firstn in Hpre.
  now replace (j <? i)%nat with true in Hpre
    by (symmetry; apply Nat.ltb_lt; exact Hlt).
Qed.

Lemma signal_lag_witness :
  decision_on
    (decisions (map sim_row (detect_vpa_anomalies df_signal 2))
               5 (1 # 1000) 10000 long_only) 1
  = decision_on
      (decisions (map sim_row (detect_vpa_anomalies df_quiet 2))
                 5 (1 # 1000) 10000 long_only) 1.
Proof.
  apply (signal_lag df_signal df_quiet 1 2 5 (1 # 1000) 10000 long_only).
  - split; [reflexivity|]. split; [|reflexivity].
    intros j Hj.
    destruct j as [|[|[|j]]]; try reflexivity. now elim Hj.
  - lia.
Defined.

(** The changed bar does move the decision on the next bar: the FakeDown
    on bar 1 of [df_signal] is acted on when bar 2 is processed. *)
Example signal_acts_on_next_bar :
  decision_on
    (decisions (map sim_row (detect_vpa_anomalies df_signal 2))
               5 (1 # 1000) 10000 long_only) 2
  = Some (mkAction false (Some LONG)) /\
  decision_on
    (decisions (map sim_row (detect_vpa_anomalies df_quiet 2))
               5 (1 # 1000) 10000 long_only) 2
  = Some no_action.
Proof. split; vm_compute; reflexivity. Qed.

(** ** Ordering of the exit and entry checks *)

(** One iteration: the exit check runs before the entry check, so a
    position that reaches its horizon is closed and a new one can be opened
    in the same iteration; the entry reads the signals of [prev] only; and
    with both signals set in long-short mode the long entry is taken. *)
Lemma bar_step_exit_before_entry (hold_bars : Z) (cost : Q) (mode : Mode)
        (prev row : SimRow) (ret : Q) (st : SimState) :
  let st' := fst (bar_step hold_bars cost mode prev row ret st) in
  let a := snd (bar_step hold_bars cost mode prev row ret st) in
  (* same-bar re-entry after a hold-expiry exit *)
  (position st <> 0%Z -> (hold_bars <= held st + 1)%Z ->
   exited a = true /\
   trades st' = trades st ++
                [mkTrade (entry st) (name row)
                   (if (position st =? 1)%Z then LONG else SHORT) (held st + 1)] /\
   (get_flag (signal_long prev) && permits_long mode = true ->
    entered a = Some LONG /\ position st' = 1%Z /\ held st' = 0%Z /\
    entry st' = Some (name row)) /\
   (get_flag (signal_long prev) && permits_long mode = false ->
    get_flag (signal_short prev) && permits_short mode = true ->
    entered a = Some SHORT /\ position st' = (-1)%Z /\ held st' = 0%Z /\
    entry st' = Some (name row))) /\
  (* no entry while a position stays open *)
  (position st <> 0%Z -> (held st + 1 < hold_bars)%Z ->
   a = no_action /\ position st' = position st) /\
  (* the decision reads the previous row's signals, not the current row *)
  (forall row' ret' prev',
     signals prev' = signals prev ->
     snd (bar_step hold_bars cost mode prev' row' ret' st) = a) /\
  (get_flag (signal_long prev) = false -> get_flag (signal_short prev) = false ->
   entered a = None) /\
  (* long first *)
  (mode = long_short ->
   get_flag (signal_long prev) = true -> get_flag (signal_short prev) = true ->
   flat_for_entry hold_bars st = true ->
   entered a = Some LONG /\ position st' = 1%Z).
Proof.
  cbv zeta.
  destruct (bar_step_spec hold_bars cost mode prev row ret st)
    as [Ha [Hp [Hh [He [Ht _]]]]].
  cbv zeta in *.
  rewrite Ha, Hp, Hh, He, Ht.
  unfold decision, takes_long, takes_short, flat_for_entry, exit_due.
  cbn [exited entered].
  split; [|split; [|split; [|split]]].
  - intros Hnz Hdue. apply Z.eqb_neq in Hnz. apply Z.leb_le in Hdue.
    rewrite Hnz, Hdue. cbn [negb andb orb].
    split; [reflexivity|]. split; [reflexivity|]. split.
    + intro Hl. rewrite Hl. repeat split.
    + intros Hl Hs. rewrite Hl, Hs. repeat split.
  - intros Hnz Hdue. apply Z.eqb_neq in Hnz. apply Z.leb_gt in Hdue.
    rewrite Hnz, Hdue. split; reflexivity.
  - intros row' ret' prev' Hsig.
    destruct (bar_step_spec hold_bars cost mode prev' row' ret' st) as [Ha' _].
    rewrite Ha'. unfold decision, takes_long, takes_short, flat_for_entry, exit_due.
    unfold signals in Hsig. injection Hsig as -> ->. reflexivity.
  - intros Hl Hs. rewrite Hl, Hs. cbn [andb negb].
    now rewrite !andb_false_r.
  - intros -> Hl Hs Hflat.
    unfold flat_for_entry, exit_due in Hflat.
    rewrite Hflat, Hl. split; reflexivity.
Qed.

(** *** The iterations of a run

    The loop reads row [i] and its [Return] in iteration [i] and nothing
    beyond it, so the run on the frame cut after bar [i] leaves the loop
    variables as the run on the whole frame has them when iteration [i]
    ends. *)

Lemma pct_change_combine_firstn (m : nat) :
  forall (x : Q) (t : list Q),
    combine (x :: firstn m t) (firstn m t)
    = combine (firstn m (x :: t)) (firstn m t).
Proof.
  induction m as [|m IH]; intros x t; [reflexivity|].
  destruct t as [|y t]; [reflexivity|].
  rewrite !firstn_cons. cbn [combine]. f_equal. apply IH.
Qed.

Lemma pct_change_firstn (n : nat) (xs : list Q) :
  pct_change (firstn n xs) = firstn n (pct_change xs).
Proof.
  destruct n as [|n]; [reflexivity|].
  destruct xs as [|x t]; [reflexivity|].
  rewrite firstn_cons. unfold pct_change. rewrite firstn_cons. f_equal.
  rewrite firstn_map, combine_firstn. f_equal.
  apply pct_change_combine_firstn.
Qed.

Lemma with_returns_firstn (n : nat) (df : list SimRow) :
  with_returns (firstn n df) = firstn n (with_returns df).
Proof.
  unfold with_returns, fillna.
  now rewrite combine_firstn, firstn_map, <- pct_change_firstn, firstn_map.
Qed.

Lemma firstn_succ_nth (A : Type) (l : list A) :
  forall i x, nth_error l i = Some x -> firstn (S i) l = firstn i l ++ [x].
Proof.
  induction l as [|y l IH]; intros i x H; [destruct i; discriminate|].
  destruct i as [|i].
  - cbn in H. injection H as ->. reflexivity.
  - cbn [nth_error] in H. rewrite firstn_cons, (IH i x H). reflexivity.
Qed.

Lemma last_firstn_nth (A : Type) (i : nat) :
  forall (l : list A) (d x : A),
    nth_error (d :: l) i = Some x -> last (firstn i l) d = x.
Proof.
  induction i as [|i IH]; intros l d x H.
  - cbn in H. injection H as ->. reflexivity.
  - destruct l as [|y l]; [destruct i; discriminate|].
    rewrite firstn_cons, (last_cons_default A y d (firstn i l)).
    apply IH. exact H.
Qed.

(** The trade list only grows. *)
Lemma run_bars_trades_grow (hold_bars : Z) (cost : Q) (mode : Mode)
      (rest : list (SimRow * Q)) :
  forall prev st,
    exists later,
      trades (fst (run_bars hold_bars cost mode prev rest st))
      = trades st ++ later.
Proof.
  induction rest as [|[row ret] rest IH]; intros prev st.
  - exists []. cbn. now rewrite app_nil_r.
  - cbn [run_bars].
    destruct (bar_step_spec hold_bars cost mode prev row ret st)
      as [_ [_ [_ [_ [Ht _]]]]].
    cbv zeta in Ht.
    destruct (bar_step hold_bars cost mode prev row ret st) as [st1 a1].
    cbn [fst] in Ht.
    destruct (IH row st1) as [later Hl].
    destruct (run_bars hold_bars cost mode row rest st1) as [st2 acts].
    cbn [fst] in *. rewrite Hl, Ht.
    destruct (exit_due hold_bars st); eexists;
      [rewrite <- app_assoc|]; reflexivity.
Qed.

(** The run on the frame cut after bar [i + 1] is the run on the frame cut
    after bar [i] followed by one iteration, on row [i + 1] with row [i]
    as the previous row. *)
Lemma simulate_firstn_succ (df : list SimRow) (hold_bars : Z)
      (cost initial_equity : Q) (mode : Mode) (i : nat)
      (prev row : SimRow) (ret : Q) :
  nth_error df i = Some prev ->
  nth_error (with_returns df) (S i) = Some (row, ret) ->
  simulate (firstn (S (S i)) df) hold_bars cost initial_equity mode
  = (fst (bar_step hold_bars cost mode prev row ret
            (fst (simulate (firstn (S i) df) hold_bars cost initial_equity mode))),
     snd (simulate (firstn (S i) df) hold_bars cost initial_equity mode)
     ++ [snd (bar_step hold_bars cost mode prev row ret
                (fst (simulate (firstn (S i) df) hold_bars cost
                               initial_equity mode)))]).
Proof.
  intros Hprev Hrow. unfold simulate. rewrite !with_returns_firstn.
  assert (Hrows := with_returns_rows df).
  destruct (with_returns df) as [|[row0 r0] rest]; [discriminate|].
  cbn [nth_error] in Hrow. cbn [map fst] in Hrows.
  rewrite !firstn_cons, (firstn_succ_nth _ rest i (row, ret) Hrow).
  rewrite run_bars_app.
  destruct (run_bars hold_bars cost mode row0 (firstn i rest)
              (initial_state initial_equity)) as [st acts].
  cbn [fst snd].
  assert (Hlast : last (map fst (firstn i rest)) row0 = prev).
  { rewrite <- firstn_map. apply last_firstn_nth.
    rewrite Hrows. exact Hprev. }
  rewrite Hlast. cbn [run_bars].
  destruct (bar_step hold_bars cost mode prev row ret st). reflexivity.
Qed.

(** The run on the whole frame continues the run on the frame cut after
    bar [n]: same decisions up to there, and a trade list that extends
    the one recorded so far. *)
Lemma simulate_prefix (df : list SimRow) (hold_bars : Z)
      (cost initial_equity : Q) (mode : Mode) (n : nat) :
  exists later_acts later_trades,
    snd (simulate df hold_bars cost initial_equity mode)
    = snd (simulate (firstn (S n) df) hold_bars cost initial_equity mode)
      ++ later_acts /\
    trades (fst (simulate df hold_bars cost initial_equity mode))
    = trades (fst (simulate (firstn (S n) df) hold_bars cost
                            initial_equity mode))
      ++ later_trades.
Proof.
  unfold simulate. rewrite with_returns_firstn.
  destruct (with_returns df) as [|[row0 r0] rest].
  - exists [], []. split; reflexivity.
  - rewrite firstn_cons.
    assert (Happ := run_bars_app hold_bars cost mode (firstn n rest)
                      (skipn n rest) row0 (initial_state initial_equity)).
    rewrite firstn_skipn in Happ. rewrite Happ.
    destruct (run_bars hold_bars cost mode row0 (firstn n rest)
                (initial_state initial_equity)) as [st1 a1].
    destruct (run_bars_trades_grow hold_bars cost mode (skipn n rest)
                (last (map fst (firstn n rest)) row0) st1) as [later Hl].
    destruct (run_bars hold_bars cost mode
                (last (map fst (firstn n rest)) row0) (skipn n rest) st1)
      as [st2 a2].
    cbn [fst snd] in *. exists a2, later. split; [reflexivity | exact Hl].
Qed.

(** C6.  On every simulated bar [i + 1] of a run of the simulator, with
    [st] the loop variables as the iterations up to bar [i] leave them and
    [st'] as the iteration for bar [i + 1] leaves them: the exit check
    runs before the entry check, so a position that reaches its horizon is
    closed, its trade recorded in the list the simulator returns, and a
    new position can be opened on the same bar; the entry reads the
    signals of bar [i], the previous bar (the decision is the same on every
    frame with the same labels and the same signals up to bar [i], whatever
    its closes and whatever bar [i + 1] and the bars after it carry); and
    with both signals of bar [i] set in long-short mode the long entry is
    the one taken. *)
Theorem exit_before_entry_long_first (df : list SimRow) (hold_bars : Z)
        (cost initial_equity : Q) (mode : Mode) (i : nat) (prev row : SimRow) :
  nth_error df i = Some prev ->
  nth_error df (S i) = Some row ->
  let st := fst (simulate (firstn (S i) df) hold_bars cost initial_equity mode) in
  let st' := fst (simulate (firstn (S (S i)) df) hold_bars cost
                           initial_equity mode) in
  exists a,
    decision_on (decisions df hold_bars cost initial_equity mode) (S i) = Some a /\
    (exists later,
       snd (backtest_vpa df hold_bars cost initial_equity mode)
       = trades st' ++ later) /\
    (* same-bar re-entry after a hold-expiry exit *)
    (position st <> 0%Z -> (hold_bars <= held st + 1)%Z ->
     exited a = true /\
     trades st' = trades st ++
                  [mkTrade (entry st) (name row)
                     (if (position st =? 1)%Z then LONG else SHORT) (held st + 1)] /\
     (get_flag (signal_long prev) && permits_long mode = true ->
      entered a = Some LONG /\ position st' = 1%Z /\ held st' = 0%Z /\
      entry st' = Some (name row)) /\
     (get_flag (signal_long prev) && permits_long mode = false ->
      get_flag (signal_short prev) && permits_short mode = true ->
      entered a = Some SHORT /\ position st' = (-1)%Z /\ held st' = 0%Z /\
      entry st' = Some (name row))) /\
    (* no entry while a position stays open *)
    (position st <> 0%Z -> (held st + 1 < hold_bars)%Z ->
     a = no_action /\ position st' = position st) /\
    (* the decision reads the signals up to the previous bar only *)
    (forall df2,
       map name df2 = map name df ->
       firstn (S i) (map signals df2) = firstn (S i) (map signals df) ->
       decision_on (decisions df2 hold_bars cost initial_equity mode) (S i)
       = Some a) /\
    (get_flag (signal_long prev) = false -> get_flag (signal_short prev) = false ->
     entered a = None) /\
    (* long first *)
    (mode = long_short ->
     get_flag (signal_long prev) = true -> get_flag (signal_short prev) = true ->
     flat_for_entry hold_bars st = true ->
     entered a = Some LONG /\ position st' = 1%Z).
Proof.
  intros Hprev Hrow. cbv zeta.
  assert (Hlt : (S i < length df)%nat) by (apply nth_error_Some; congruence).
  destruct (nth_error (with_returns df) (S i)) as [[row1 ret]|] eqn:Err.
  2:{ apply nth_error_None in Err. rewrite with_returns_length in Err. lia. }
  assert (Hrow1 := with_returns_nth df (S i) (row1, ret) Err).
  cbn [fst] in Hrow1.
  assert (row1 = row) by congruence. subst row1.
  rewrite (simulate_firstn_succ df hold_bars cost initial_equity mode i
             prev row ret Hprev Err).
  assert (Hstep := simulate_firstn_succ df hold_bars cost initial_equity mode i
                     prev row ret Hprev Err).
  destruct (simulate_equity_shape (firstn (S i) df) hold_bars cost
              initial_equity mode) as [_ [Hacts _]].
  rewrite length_firstn in Hacts.
  replace (Nat.min (S i) (length df) - 1)%nat with i in Hacts by lia.
  destruct (simulate_prefix df hold_bars cost initial_equity mode (S i))
    as [later_acts [later_trades [Hla Hlt']]].
  rewrite Hstep in Hla, Hlt'. cbn [fst snd] in Hla, Hlt'.
  set (st := fst (simulate (firstn (S i) df) hold_bars cost
                           initial_equity mode)) in *.
  set (acts := snd (simulate (firstn (S i) df) hold_bars cost
                             initial_equity mode)) in *.
  cbn [fst].
  assert (Ha : decision_on (decisions df hold_bars cost initial_equity mode) (S i)
               = Some (snd (bar_step hold_bars cost mode prev row ret st))).
  { cbn [decision_on]. unfold decisions. rewrite Hla, <- app_assoc.
    rewrite nth_error_app2 by lia.
    replace (i - length acts)%nat with 0%nat by lia. reflexivity. }
  exists (snd (bar_step hold_bars cost mode prev row ret st)).
  destruct (bar_step_exit_before_entry hold_bars cost mode prev row ret st)
    as [Hre [Hopen [_ [Hnone Hlong]]]].
  cbv zeta in Hre, Hopen, Hnone, Hlong.
  split; [exact Ha|].
  split; [exists later_trades; unfold backtest_vpa; cbn [snd]; exact Hlt'|].
  split; [exact Hre|]. split; [exact Hopen|].
  split; [|split; [exact Hnone | exact Hlong]].
  intros df2 Hnames Hsigs.
  assert (Hlag := decisions_lag df2 df (S i) hold_bars cost initial_equity mode).
  rewrite Hnames in Hlag. specialize (Hlag eq_refl Hsigs).
  cbn [decision_on] in Ha |- *.
  apply (f_equal (fun l => nth_error l i)) in Hlag.
  rewrite !nth_error_firstn in Hlag.
  replace (i <? S i)%nat with true in Hlag
    by (symmetry; apply Nat.ltb_lt; lia).
  now rewrite Hlag.
Qed.

Lemma exit_before_entry_long_first_witness :
  decision_on (decisions df_reentry 2 (1 # 1000) 10000 long_short) 3
  = Some (mkAction true (Some LONG)) /\
  exists later,
    snd (backtest_vpa df_reentry 2 (1 # 1000) 10000 long_short)
    = [mkTrade (Some 1%Z) 3 LONG 2] ++ later.
Proof.
  assert (H := exit_before_entry_long_first df_reentry 2 (1 # 1000) 10000
                 long_short 2 (both_sig 2) (plain 3) eq_refl eq_refl).
  cbv zeta in H.
  destruct H as [a [Ha [Hlater [Hre _]]]].
  assert (Hp : position (fst (simulate (firstn 3 df_reentry) 2 (1 # 1000)
                                       10000 long_short)) <> 0%Z)
    by (vm_compute; discriminate).
  assert (Hh : (2 <= held (fst (simulate (firstn 3 df_reentry) 2 (1 # 1000)
                                         10000 long_short)) + 1)%Z)
    by (vm_compute; discriminate).
  destruct (Hre Hp Hh) as [Hex [Htr [Hl _]]].
  destruct (Hl eq_refl) as [Hen _].
  split.
  - rewrite Ha. destruct a as [ex en]. cbn [exited entered] in Hex, Hen.
    now rewrite Hex, Hen.
  - rewrite Htr in Hlater. exact Hlater.
Defined.

(** ** Mode gating *)

Lemma short_only_invariant_step (names : list Z) (hold_bars : Z) (cost : Q) :
  forall k prev row ret st acts,
    short_only_invariant k st acts ->
    nth_error names (S k) = Some (name row) ->
    short_only_invariant (S k)
      (fst (bar_step hold_bars cost short_only prev row ret st))
      (acts ++ [snd (bar_step hold_bars cost short_only prev row ret st)]).
Proof.
  intros k prev row ret st acts [Hpos Htr] _.
  destruct (bar_step_spec hold_bars cost short_only prev row ret st)
    as [_ [Hp [_ [_ [Ht _]]]]].
  cbv zeta in *. unfold short_only_invariant.
  rewrite Hp, Ht.
  assert (Hl : takes_long hold_bars short_only prev st = false).
  { unfold takes_long. cbn [permits_long]. now rewrite andb_false_r, andb_false_r. }
  rewrite Hl. split.
  - destruct (takes_short hold_bars short_only prev st); [now right|].
    destruct (exit_due hold_bars st); [now left | exact Hpos].
  - destruct (exit_due hold_bars st); [|exact Htr].
    apply Forall_app. split; [exact Htr|].
    constructor; [|constructor]. cbn [direction].
    destruct Hpos as [-> | ->]; reflexivity.
Qed.

Lemma bar_step_without_long_signal (hold_bars : Z) (cost : Q)
      (prev row : SimRow) (ret : Q) (st : SimState) :
  no_long_signal prev ->
  bar_step hold_bars cost short_only prev row ret st
  = bar_step hold_bars cost long_short prev row ret st.
Proof.
  unfold no_long_signal. intro Hl.
  unfold bar_step.
  destruct (exit_check hold_bars cost row (accrue ret st)) as [[s1 pnl] ex].
  unfold entry_check. rewrite Hl. reflexivity.
Qed.

Lemma run_bars_without_long_signal (hold_bars : Z) (cost : Q)
      (rest : list (SimRow * Q)) :
  forall prev st,
    Forall no_long_signal (removelast (prev :: map fst rest)) ->
    run_bars hold_bars cost short_only prev rest st
    = run_bars hold_bars cost long_short prev rest st.
Proof.
  induction rest as [|[row ret] rest IH]; intros prev st Hall; [reflexivity|].
  cbn [map fst] in Hall.
  change (removelast (prev :: row :: map fst rest))
    with (prev :: removelast (row :: map fst rest)) in Hall.
  inversion Hall as [|? ? Hprev Hrest]; subst.
  cbn [run_bars].
  rewrite (bar_step_without_long_signal hold_bars cost prev row ret st Hprev).
  destruct (bar_step hold_bars cost long_short prev row ret st) as [st1 a1].
  now rewrite (IH row st1 Hrest).
Qed.

Lemma filter_all_true (A : Type) (f : A -> bool) (l : list A) :
  Forall (fun x => f x = true) l -> filter f l = l.
Proof.
  induction 1 as [|x l Hx Hl IH]; [reflexivity|].
  cbn. now rewrite Hx, IH.
Qed.

(** C8 (amended).  Every trade of a short-only run is a SHORT trade; and
    when no bar before the last carries a Long signal, the short-only
    trade list is exactly the list of SHORT trades of the long-short run
    on the same data. *)
Theorem short_only_trades (df : list SimRow) (hold_bars : Z)
        (cost initial_equity : Q) :
  let shorts := snd (backtest_vpa df hold_bars cost initial_equity short_only) in
  let both := snd (backtest_vpa df hold_bars cost initial_equity long_short) in
  (forall t, In t shorts -> direction t = SHORT) /\
  (Forall no_long_signal (removelast df) ->
   shorts = both /\ shorts = filter is_short both).
Proof.
  cbv zeta.
  assert (Hinv := simulate_invariant hold_bars cost short_only (map name df)
                    short_only_invariant
                    (short_only_invariant_step (map name df) hold_bars cost)
                    df initial_equity eq_refl).
  destruct Hinv as [_ Hdir].
  { split; [now left | constructor]. }
  unfold backtest_vpa. cbn [snd].
  split.
  - intros t Hin. rewrite Forall_forall in Hdir. now apply Hdir.
  - intro Hall.
    assert (Heq : simulate df hold_bars cost initial_equity short_only
                  = simulate df hold_bars cost initial_equity long_short).
    { unfold simulate.
      assert (Hrows := with_returns_rows df).
      destruct (with_returns df) as [|[row0 ret0] rest]; [reflexivity|].
      apply run_bars_without_long_signal.
      cbn [map fst] in Hrows. now rewrite Hrows. }
    split; [now rewrite Heq|].
    rewrite <- Heq. symmetry. apply filter_all_true.
    eapply Forall_impl; [|exact Hdir].
    intros t Ht. unfold is_short. now rewrite Ht.
Qed.

Lemma short_only_trades_witness :
  snd (backtest_vpa df_short_only_signal 2 (1 # 1000) 10000 short_only)
  = filter is_short
      (snd (backtest_vpa df_short_only_signal 2 (1 # 1000) 10000 long_short)).
Proof.
  destruct (short_only_trades df_short_only_signal 2 (1 # 1000) 10000) as [_ H].
  apply H.
  vm_compute. repeat constructor.
Defined.

(** C8, as stated, fails: with a Long signal on bar 0 and a Short signal
    on bar 1 (holding period 2), the short-only run trades short from bar
    2 to bar 4, while the long-short run is long from bar 1 to bar 3, never
    sees the short signal while flat, and records no SHORT trade. *)
Lemma short_only_subset_counterexample :
  snd (backtest_vpa df_long_then_short 2 (1 # 1000) 10000 short_only)
    = [mkTrade (Some 2%Z) 4 SHORT 2] /\
  snd (backtest_vpa df_long_then_short 2 (1 # 1000) 10000 long_short)
    = [mkTrade (Some 1%Z) 3 LONG 2] /\
  ~ (forall df hold_bars cost initial_equity,
       incl (snd (backtest_vpa df hold_bars cost initial_equity short_only))
            (filter is_short
               (snd (backtest_vpa df hold_bars cost initial_equity long_short)))).
Proof.
  split; [vm_compute; reflexivity|].
  split; [vm_compute; reflexivity|].
  intro H.
  specialize (H df_long_then_short 2%Z (1 # 1000) 10000
                (mkTrade (Some 2%Z) 4 SHORT 2)).
  vm_compute in H. apply H. left. reflexivity.
Qed.

(** ** Short histories *)

Lemma Qmult_one_plus_zero (x : Q) : x * (1 + 0) = x.
Proof.
  destruct x as [n d]. unfold Qmult, Qplus. cbn.
  now rewrite Z.mul_1_r, Pos.mul_1_r.
Qed.

Lemma bar_step_no_signal (hold_bars : Z) (cost : Q) (mode : Mode)
      (prev row : SimRow) (ret : Q) (st : SimState) :
  position st = 0%Z -> no_signal prev ->
  let st' := fst (bar_step hold_bars cost mode prev row ret st) in
  snd (bar_step hold_bars cost mode prev row ret st) = no_action /\
  position st' = 0%Z /\ trades st' = trades st /\
  equity st' = equity st ++ [last (equity st) 0].
Proof.
  intros Hpos [Hl Hs]. cbv zeta.
  destruct (bar_step_spec hold_bars cost mode prev row ret st)
    as [Ha [Hp [_ [_ [Ht [pnl [He Hpnl]]]]]]].
  cbv zeta in *.
  assert (Hex : exit_due hold_bars st = false)
    by (unfold exit_due; now rewrite Hpos).
  assert (Hlg : takes_long hold_bars mode prev st = false)
    by (unfold takes_long; rewrite Hl; now rewrite andb_false_r).
  assert (Hsh : takes_short hold_bars mode prev st = false)
    by (unfold takes_short; rewrite Hs; now rewrite andb_false_r).
  rewrite Ha, Hp, Ht, He. unfold decision.
  rewrite Hex, Hlg, Hsh, (Hpnl Hpos Hlg Hsh), Qmult_one_plus_zero.
  now rewrite Hpos.
Qed.

Lemma run_bars_no_signal (hold_bars : Z) (cost : Q) (mode : Mode)
      (rest : list (SimRow * Q)) :
  forall prev st,
    position st = 0%Z ->
    Forall no_signal (removelast (prev :: map fst rest)) ->
    let st' := fst (run_bars hold_bars cost mode prev rest st) in
    snd (run_bars hold_bars cost mode prev rest st)
      = repeat no_action (length rest) /\
    position st' = 0%Z /\ trades st' = trades st /\
    equity st' = equity st ++ repeat (last (equity st) 0) (length rest).
Proof.
  induction rest as [|[row ret] rest IH]; intros prev st Hpos Hall; cbv zeta.
  - cbn. now rewrite app_nil_r.
  - cbn [map fst] in Hall.
    change (removelast (prev :: row :: map fst rest))
      with (prev :: removelast (row :: map fst rest)) in Hall.
    inversion Hall as [|? ? Hprev Hrest]; subst.
    destruct (bar_step_no_signal hold_bars cost mode prev row ret st Hpos Hprev)
      as [Ha [Hp [Ht He]]].
    cbn [run_bars].
    destruct (bar_step hold_bars cost mode prev row ret st) as [st1 a1].
    cbn [fst snd] in Ha, Hp, Ht, He.
    destruct (IH row st1 Hp Hrest) as [Ha' [Hp' [Ht' He']]].
    destruct (run_bars hold_bars cost mode row rest st1) as [st2 acts].
    cbn [fst snd length repeat] in *.
    rewrite Ha, Ha', Hp', Ht', Ht, He', He.
    repeat split; try reflexivity.
    rewrite last_last, <- app_assoc. reflexivity.
Qed.

Lemma Forall_removelast_nth (A : Type) (P : A -> Prop) (l : list A) :
  (forall i x, nth_error l i = Some x -> (S i < length l)%nat -> P x) ->
  Forall P (removelast l).
Proof.
  intro H. rewrite removelast_firstn_len.
  apply Forall_forall. intros x Hin.
  destruct (In_nth_error _ _ Hin) as [i Hi].
  rewrite nth_error_firstn in Hi.
  destruct (i <? Init.Nat.pred (length l))%nat eqn:E; [|discriminate].
  apply Nat.ltb_lt in E. apply (H i x Hi). lia.
Qed.

Lemma early_row_quiet (df : list Bar) (lookback i : nat) (r : Row) :
  nth_error (detect_vpa_anomalies df lookback) i = Some r ->
  (S i < lookback)%nat ->
  regime_flags r = (Some false, Some false, Some false, Some false) /\
  category_count r = 0%nat /\
  Signal_Long r = false /\ Signal_Short r = false.
Proof.
  intros Hr Hearly.
  destruct (detect_nth_inv df lookback i r Hr) as [b [_ ->]].
  rewrite !percentile_at_early by exact Hearly.
  unfold category_count. cbn.
  rewrite !andb_false_r. repeat split.
Qed.

(** The last bar of a series of exactly [lookback] bars has the whole
    series as its window: its four percentile cells are defined and its
    regime flags are the strict comparisons with them. *)
Lemma full_window_row (df : list Bar) (lookback i : nat) (r : Row) :
  (length df < lookback + 1)%nat ->
  nth_error (detect_vpa_anomalies df lookback) i = Some r ->
  S i = lookback ->
  exists sp75 sp25 vlow vhigh,
    quantile_linear (75 # 100) (map spread_of df) = Some sp75 /\
    quantile_linear (25 # 100) (map spread_of df) = Some sp25 /\
    quantile_linear (25 # 100) (map Volume df) = Some vlow /\
    quantile_linear (75 # 100) (map Volume df) = Some vhigh /\
    Spread_p75 r = Some sp75 /\ Spread_p25 r = Some sp25 /\
    Vol_p_low r = Some vlow /\ Vol_p_high r = Some vhigh /\
    WideSpread r = Qltb sp75 (Spread r) /\
    NarrowSpread r = Qltb (Spread r) sp25 /\
    LowVol r = Qltb (Volume (bar r)) vlow /\
    HighVol r = Qltb vhigh (Volume (bar r)).
Proof.
  intros Hshort Hr Hi.
  destruct (detect_nth_inv df lookback i r Hr) as [b [Hb ->]].
  assert (Hlt : (i < length df)%nat) by (apply nth_error_Some; congruence).
  assert (Hlen : length df = lookback) by lia.
  assert (Hw : forall xs : list Q,
             length xs = lookback -> inclusive_window lookback i xs = xs).
  { intros xs Hxs. unfold inclusive_window.
    replace (S i - lookback)%nat with 0%nat by lia.
    cbn [skipn]. apply firstn_all2. lia. }
  rewrite !percentile_at_full by lia.
  rewrite !Hw by (rewrite length_map; exact Hlen).
  destruct df as [|b0 rest]; [destruct i; discriminate|].
  unfold quantile_linear, classify_row. cbn [map].
  cbn [Spread_p75 Spread_p25 Vol_p_low Vol_p_high WideSpread NarrowSpread
       LowVol HighVol Spread bar gt_cell lt_cell].
  do 4 eexists. repeat split; reflexivity.
Qed.

Lemma early_row_undefined (df : list Bar) (lookback i : nat) (r : Row) :
  nth_error (detect_vpa_anomalies df lookback) i = Some r ->
  (S i < lookback)%nat ->
  Spread_p75 r = None /\ Spread_p25 r = None /\
  Vol_p_low r = None /\ Vol_p_high r = None.
Proof.
  intros Hr Hearly.
  destruct (detect_nth_inv df lookback i r Hr) as [b [_ ->]].
  rewrite !percentile_at_early by exact Hearly.
  repeat split.
Qed.

(** C4 (amended).  On a series of fewer than [lookback + 1] bars, the
    empty one included, the classifier returns one row per bar.  On every
    bar before position [lookback - 1] the four percentile cells are NaN
    and the flags, categories and signals are all [False].  The bar at
    position [lookback - 1], when the series has one, has the whole series
    as its window: its percentile cells are defined and its regime flags
    are the strict comparisons with them.  Run on that frame, the simulator
    returns no trade and an equity curve that stays at [initial_equity]. *)
Theorem short_history_is_flat (df : list Bar) (lookback : nat)
        (hold_bars : Z) (cost initial_equity : Q) (mode : Mode) :
  (length df < lookback + 1)%nat ->
  let rows := detect_vpa_anomalies df lookback in
  let result := backtest_vpa (map sim_row rows) hold_bars cost initial_equity mode in
  length rows = length df /\
  (forall i r, nth_error rows i = Some r -> (S i < lookback)%nat ->
     Spread_p75 r = None /\ Spread_p25 r = None /\
     Vol_p_low r = None /\ Vol_p_high r = None /\
     regime_flags r = (Some false, Some false, Some false, Some false) /\
     category_count r = 0%nat /\
     Signal_Long r = false /\ Signal_Short r = false) /\
  (forall i r, nth_error rows i = Some r -> S i = lookback ->
     exists sp75 sp25 vlow vhigh,
       quantile_linear (75 # 100) (map spread_of df) = Some sp75 /\
       quantile_linear (25 # 100) (map spread_of df) = Some sp25 /\
       quantile_linear (25 # 100) (map Volume df) = Some vlow /\
       quantile_linear (75 # 100) (map Volume df) = Some vhigh /\
       Spread_p75 r = Some sp75 /\ Spread_p25 r = Some sp25 /\
       Vol_p_low r = Some vlow /\ Vol_p_high r = Some vhigh /\
       WideSpread r = Qltb sp75 (Spread r) /\
       NarrowSpread r = Qltb (Spread r) sp25 /\
       LowVol r = Qltb (Volume (bar r)) vlow /\
       HighVol r = Qltb vhigh (Volume (bar r))) /\
  snd result = [] /\
  Equity (fst result) = repeat initial_equity (Nat.max 1 (length df)).
Proof.
  intro Hshort. cbv zeta.
  split; [apply detect_length|].
  split.
  { intros i r Hr Hearly.
    destruct (early_row_undefined df lookback i r Hr Hearly)
      as [H1 [H2 [H3 H4]]].
    destruct (early_row_quiet df lookback i r Hr Hearly)
      as [H5 [H6 [H7 H8]]].
    repeat split; assumption. }
  split; [intros i r; apply (full_window_row df lookback i r Hshort)|].
  set (rows := map sim_row (detect_vpa_anomalies df lookback)).
  assert (Hlen : length rows = length df)
    by (unfold rows; now rewrite length_map, detect_length).
  assert (Hquiet : Forall no_signal (removelast rows)).
  { apply Forall_removelast_nth. intros i x Hi Hlt.
    unfold rows in Hi. rewrite nth_error_map in Hi.
    destruct (nth_error (detect_vpa_anomalies df lookback) i) as [r|] eqn:Er;
      [|discriminate].
    injection Hi as <-.
    destruct (early_row_quiet df lookback i r Er) as [_ [_ [Hl Hs]]]; [lia|].
    unfold no_signal. cbn. now rewrite Hl, Hs. }
  unfold backtest_vpa, simulate. cbn [fst snd Equity].
  assert (Hrows := with_returns_rows rows).
  assert (Hwl := with_returns_length rows).
  destruct (with_returns rows) as [|[row0 ret0] rest].
  - cbn in Hwl. rewrite <- Hlen, <- Hwl. split; reflexivity.
  - cbn [map fst] in Hrows. rewrite <- Hrows in Hquiet.
    destruct (run_bars_no_signal hold_bars cost mode rest row0
                (initial_state initial_equity) eq_refl Hquiet)
      as [_ [_ [Ht He]]].
    cbv zeta in Ht, He. rewrite Ht, He. cbn [initial_state trades equity last].
    split; [reflexivity|].
    rewrite <- Hlen, <- Hwl. cbn [length]. reflexivity.
Qed.

Lemma short_history_is_flat_witness :
  snd (backtest_vpa (map sim_row (detect_vpa_anomalies df_two 2))
                    5 (1 # 1000) 10000 long_short) = [] /\
  Equity (fst (backtest_vpa (map sim_row (detect_vpa_anomalies df_two 2))
                            5 (1 # 1000) 10000 long_short))
  = repeat 10000 (Nat.max 1 (length df_two)).
Proof.
  assert (Hshort : (length df_two < 2 + 1)%nat) by (vm_compute; lia).
  destruct (short_history_is_flat df_two 2 5 (1 # 1000) 10000 long_short Hshort)
    as [_ [_ [_ [Ht He]]]].
  split; assumption.
Defined.

(** C4, as stated, fails for the classifier: a two-bar history under a
    lookback of 2 has its percentiles defined on bar 1, which is flagged
    WideSpread; and the flags of bar 0 are [False], not null. *)
Lemma short_history_flags_counterexample :
  (length df_two < 2 + 1)%nat /\
  map regime_flags (detect_vpa_anomalies df_two 2)
  = [ (Some false, Some false, Some false, Some false);
      (Some true, Some false, Some false, Some false) ] /\
  ~ (forall df lookback r,
       (length df < lookback + 1)%nat ->
       In r (detect_vpa_anomalies df lookback) ->
       regime_flags r = all_undefined).
Proof.
  split; [vm_compute; lia|].
  split; [vm_compute; reflexivity|].
  intro H.
  assert (Hshort : (length df_two < 2 + 1)%nat) by (vm_compute; lia).
  destruct (detect_vpa_anomalies df_two 2) as [|r0 rest] eqn:E;
    [vm_compute in E; discriminate|].
  specialize (H df_two 2%nat r0 Hshort).
  rewrite E in H. specialize (H (or_introl eq_refl)).
  discriminate.
Qed.

(** ** Metrics *)

Section MetricsProperties.

Variable fpow : Q -> Q -> Q.
Variable fsqrt : Q -> Q.

(** On a frame with at least one row the calculator returns, with the
    guarded formulas of the source. *)
Lemma calc_metrics_nonempty (e : Q) (eq rets : list Q) (trades : list Trade) :
  exists m,
    calc_metrics fpow fsqrt (mkEquityFrame (e :: eq) rets) trades = Returned m /\
    total_ret m = last eq e / e - 1 /\
    cagr m = (if (0 <? length rets)%nat
              then fpow (1 + total_ret m)
                        (252 / inject_Z (Z.of_nat (length rets))) - 1
              else 0) /\
    vol m = match std fsqrt rets with
            | Some s => Some (s * fsqrt 252)
            | None => None
            end /\
    sharpe m = match vol m with
               | Some v => if Qltb 0 v then cagr m / v else 0
               | None => 0
               end /\
    total_trades m = length trades.
Proof.
  eexists. split; [reflexivity|]. cbn.
  repeat split; reflexivity.
Qed.

(** The Sharpe guard: zero whenever the volatility is not positive,
    NaN included. *)
Lemma sharpe_guard (data : EquityFrame) (trades : list Trade) (m : Metrics) :
  calc_metrics fpow fsqrt data trades = Returned m ->
  (forall v, vol m = Some v -> ~ 0 < v) ->
  sharpe m = 0.
Proof.
  destruct data as [[|e eq] rets]; [discriminate|].
  intros Hm Hv.
  destruct (calc_metrics_nonempty e eq rets trades)
    as [m' [Hm' [_ [_ [_ [Hs _]]]]]].
  rewrite Hm in Hm'. injection Hm' as <-.
  rewrite Hs. destruct (vol m) as [v|]; [|reflexivity].
  destruct (Qltb 0 v) eqn:E; [|reflexivity].
  apply Qltb_lt in E. now elim (Hv v eq_refl).
Qed.

(** The frames [backtest_vpa] returns are never empty, so the calculator
    returns on every simulator output. *)
Lemma calc_metrics_returns_on_backtest (df : list SimRow) (hold_bars : Z)
      (cost initial_equity : Q) (mode : Mode) :
  exists m,
    calc_metrics fpow fsqrt
      (fst (backtest_vpa df hold_bars cost initial_equity mode))
      (snd (backtest_vpa df hold_bars cost initial_equity mode))
    = Returned m.
Proof.
  destruct (simulate_equity_shape df hold_bars cost initial_equity mode)
    as [Hlen _].
  unfold backtest_vpa. cbn [fst snd].
  destruct (equity (fst (simulate df hold_bars cost initial_equity mode)))
    as [|e eq] eqn:E; [discriminate|].
  destruct (calc_metrics_nonempty e eq
              (fillna 0 (pct_change (e :: eq)))
              (trades (fst (simulate df hold_bars cost initial_equity mode))))
    as [m [Hm _]].
  exists m. exact Hm.
Qed.

(** A flat equity curve has a zero CAGR, for any power function that
    maps a base of 1 to 1. *)
Lemma cagr_flat_equity (e : Q) (eq rets : list Q) (trades : list Trade)
      (m : Metrics) :
  ~ e == 0 -> last eq e == e ->
  (forall x y, x == 1 -> fpow x y == 1) ->
  calc_metrics fpow fsqrt (mkEquityFrame (e :: eq) rets) trades = Returned m ->
  cagr m == 0.
Proof.
  intros He Hlast Hpow Hm.
  destruct (calc_metrics_nonempty e eq rets trades)
    as [m' [Hm' [Htot [Hc _]]]].
  rewrite Hm in Hm'. injection Hm' as <-.
  rewrite Hc. destruct (0 <? length rets)%nat; [|reflexivity].
  rewrite Hpow; [ring|].
  rewrite Htot, Hlast. field. exact He.
Qed.

(** C9.  The calculator raises IndexError exactly on the frames without
    rows: there [n_days] is 0 and the guard of the CAGR expression would
    give 0, but [eq.iloc[-1]] on the line before it raises, so no CAGR
    and no Sharpe ratio are returned. *)
Theorem calc_metrics_empty_frame_raises (data : EquityFrame) (trades : list Trade) :
  calc_metrics fpow fsqrt (mkEquityFrame [] []) trades = Raised IndexError /\
  (calc_metrics fpow fsqrt data trades = Raised IndexError <-> Equity data = []).
Proof.
  split; [reflexivity|].
  destruct data as [[|e eq] rets]; cbn [Equity].
  - split; reflexivity.
  - destruct (calc_metrics_nonempty e eq rets trades) as [m [Hm _]].
    rewrite Hm. split; discriminate.
Qed.

End MetricsProperties.

(** * Further properties of the classifier *)

(** X1.  The classified frame has one row per input bar, carrying the
    bars unchanged and in order, whatever the lookback; and [Spread] is
    never negative, also on a bar whose High lies below its Low. *)
Theorem detect_preserves_bars (df : list Bar) (lookback : nat) :
  length (detect_vpa_anomalies df lookback) = length df /\
  map bar (detect_vpa_anomalies df lookback) = df /\
  Forall (fun r => Spread r = spread_of (bar r) /\ 0 <= Spread r /\
                   Body r = body_of (bar r))
         (detect_vpa_anomalies df lookback).
Proof.
  split; [apply detect_length|].
  split; [apply detect_bars|].
  apply Forall_forall. intros r Hin.
  destruct (In_nth_error _ _ Hin) as [i Hi].
  destruct (detect_nth_inv df lookback i r Hi) as [b [_ ->]].
  unfold classify_row. cbn [Spread Body bar].
  split; [reflexivity|]. split; [apply Qabs_nonneg | reflexivity].
Qed.

Lemma inclusive_window_local (w j : nat) (xs ys : list Q) :
  (w <= S j)%nat ->
  (forall p, (S j - w <= p <= j)%nat -> nth_error xs p = nth_error ys p) ->
  inclusive_window w j xs = inclusive_window w j ys.
Proof.
  intros Hw Hext. unfold inclusive_window.
  apply nth_error_ext. intro n.
  rewrite !nth_error_firstn.
  destruct (n <? w)%nat eqn:E; [|reflexivity].
  apply Nat.ltb_lt in E.
  rewrite !nth_error_skipn. apply Hext. lia.
Qed.

Lemma percentile_at_local (lookback : nat) (q : Q) (xs ys : list Q) (j : nat) :
  (forall p, (S j - lookback <= p <= j)%nat -> nth_error xs p = nth_error ys p) ->
  percentile_at lookback q xs j = percentile_at lookback q ys j.
Proof.
  intro Hext. unfold percentile_at.
  destruct (S j <? lookback)%nat eqn:E; [reflexivity|].
  apply Nat.ltb_ge in E.
  now rewrite (inclusive_window_local lookback j xs ys E Hext).
Qed.

(** X2.  Row [j] of the classified frame is a function of bar [j] and of
    the bars in the window of [lookback] positions ending at [j]: two
    series that agree there have the same row [j], whatever else differs
    before the window or after [j]. *)
Theorem row_depends_on_window (df1 df2 : list Bar) (lookback j : nat) :
  nth_error df1 j = nth_error df2 j ->
  (forall p, (S j - lookback <= p <= j)%nat -> nth_error df1 p = nth_error df2 p) ->
  nth_error (detect_vpa_anomalies df1 lookback) j
  = nth_error (detect_vpa_anomalies df2 lookback) j.
Proof.
  intros Hj Hwin.
  destruct (nth_error df1 j) as [b|] eqn:Eb.
  - symmetry in Hj.
    rewrite (detect_nth df1 lookback j b Eb), (detect_nth df2 lookback j b Hj).
    assert (Hmap : forall (f : Bar -> Q) p, (S j - lookback <= p <= j)%nat ->
                     nth_error (map f df1) p = nth_error (map f df2) p).
    { intros f p Hp. rewrite !nth_error_map, Hwin by exact Hp. reflexivity. }
    now rewrite !(percentile_at_local lookback _ (map spread_of df1)
                    (map spread_of df2) j (Hmap spread_of)),
                !(percentile_at_local lookback _ (map Volume df1)
                    (map Volume df2) j (Hmap Volume)).
  - symmetry in Hj.
    apply nth_error_None in Eb, Hj.
    rewrite <- (detect_length df1 lookback) in Eb.
    rewrite <- (detect_length df2 lookback) in Hj.
    apply nth_error_None in Eb, Hj. congruence.
Qed.

Lemma row_depends_on_window_witness :
  nth_error (detect_vpa_anomalies df_spreads 2) 2
  = nth_error (detect_vpa_anomalies (sample_bar 0 9 700 1 :: tl df_spreads) 2) 2.
Proof.
  apply (row_depends_on_window df_spreads (sample_bar 0 9 700 1 :: tl df_spreads) 2 2).
  - reflexivity.
  - intros p Hp. destruct p as [|[|[|p]]]; try reflexivity; cbn in Hp; lia.
Defined.

(** X3.  The two trade signals of a classified row are never both set: a
    Long signal sits on a down bar (close below open), a Short signal on an
    up bar. *)
Theorem signals_exclusive (df : list Bar) (lookback : nat) (r : Row) :
  In r (detect_vpa_anomalies df lookback) ->
  Signal_Long r && Signal_Short r = false /\
  (Signal_Long r = true -> Close (bar r) < Open (bar r)) /\
  (Signal_Short r = true -> Open (bar r) < Close (bar r)).
Proof.
  intro Hin.
  destruct (In_nth_error _ _ Hin) as [i Hi].
  destruct (detect_nth_inv df lookback i r Hi) as [b [_ ->]].
  cbn.
  assert (Hx := up_down_exclusive (body_of b)).
  destruct (Qltb 0 (body_of b)) eqn:Eu, (Qltb (body_of b) 0) eqn:Ed;
    cbn in Hx; try discriminate; cbn;
    rewrite ?orb_false_r, ?andb_false_r; (split; [reflexivity|]);
    split; intro H; try discriminate.
  - apply Qltb_lt in Eu. unfold body_of in Eu. lra.
  - apply Qltb_lt in Ed. unfold body_of in Ed. lra.
Qed.

Lemma signals_exclusive_witness :
  Signal_Long row_spreads_2 && Signal_Short row_spreads_2 = false.
Proof.
  apply (signals_exclusive df_spreads 2 row_spreads_2).
  vm_compute. right. right. left. reflexivity.
Defined.

(** ** Degenerate windows *)

Lemma sort_window_Forall (P : Q -> Prop) (l : list Q) :
  Forall P l -> Forall P (sort_window l).
Proof.
  induction 1 as [|x l Hx Hl IH]; [constructor|].
  cbn. now apply insert_sorted_Forall.
Qed.

Lemma Forall_nth_Qeq (c : Q) (l : list Q) (i : nat) :
  Forall (fun x => x == c) l -> (i < length l)%nat -> nth i l 0 == c.
Proof.
  intros Hall Hi. rewrite Forall_forall in Hall.
  apply Hall, nth_In, Hi.
Qed.

Lemma interpolate_constant (c h : Q) (s : list Q) :
  Forall (fun x => x == c) s ->
  0 <= h -> h <= inject_Z (Z.of_nat (length s)) - 1 ->
  interpolate s h == c.
Proof.
  intros Hall H0 Hn.
  destruct (floor_in_range s h H0 Hn) as [_ Hlo].
  assert (Hvlow := Forall_nth_Qeq c s _ Hall Hlo).
  unfold interpolate. cbv zeta.
  destruct (Qeq_bool h (inject_Z (Qfloor h))) eqn:E; [exact Hvlow|].
  assert (Hne : ~ h == inject_Z (Qfloor h)).
  { intro H. apply Qeq_bool_iff in H. congruence. }
  assert (Hvhigh := Forall_nth_Qeq c s _ Hall (floor_succ_in_range s h H0 Hn Hne)).
  rewrite Hvlow, Hvhigh. ring.
Qed.

Lemma quantile_constant (c q p : Q) (w : list Q) :
  Forall (fun x => x == c) w -> 0 <= q -> q <= 1 ->
  quantile_linear q w = Some p -> p == c.
Proof.
  intros Hall Hq0 Hq1. destruct w as [|x w]; [discriminate|].
  rewrite quantile_linear_cons.
  set (l := x :: w) in *.
  intro H. apply (f_equal (fun o => match o with Some v => v | None => 0 end)) in H.
  cbv beta iota in H. subst p.
  assert (Hn : 1 <= inject_Z (Z.of_nat (length l))).
  { change 1 with (inject_Z 1). rewrite <- Zle_Qle. subst l. simpl length. lia. }
  apply interpolate_constant.
  - now apply sort_window_Forall.
  - nra.
  - rewrite sort_window_length. nra.
Qed.

Lemma inclusive_window_In (w i : nat) (xs : list Q) (x : Q) :
  In x (inclusive_window w i xs) -> In x xs.
Proof.
  intro Hin. unfold inclusive_window in Hin.
  destruct (In_nth_error _ _ Hin) as [n Hn].
  rewrite nth_error_firstn in Hn.
  destruct (n <? w)%nat; [|discriminate].
  rewrite nth_error_skipn in Hn.
  eapply nth_error_In. exact Hn.
Qed.

Lemma inclusive_window_Forall (P : Q -> Prop) (w i : nat) (xs : list Q) :
  Forall P xs -> Forall P (inclusive_window w i xs).
Proof.
  intro H. apply Forall_forall. intros x Hin.
  rewrite Forall_forall in H. apply H.
  eapply inclusive_window_In. exact Hin.
Qed.

Lemma removelast_In (A : Type) (l : list A) (x : A) :
  In x (removelast l) -> In x l.
Proof.
  rewrite removelast_firstn_len. intro Hin.
  destruct (In_nth_error _ _ Hin) as [n Hn].
  rewrite nth_error_firstn in Hn.
  destruct (n <? Init.Nat.pred (length l))%nat; [|discriminate].
  eapply nth_error_In. exact Hn.
Qed.

(** A value equal to every value of its window is neither above the 75th
    nor below the 25th percentile. *)
Lemma constant_column_unflagged (c x : Q) (lookback : nat) (xs : list Q) (i : nat) :
  Forall (fun y => y == c) xs -> x == c ->
  gt_cell x (percentile_at lookback (75 # 100) xs i) = false /\
  lt_cell x (percentile_at lookback (25 # 100) xs i) = false.
Proof.
  intros Hall Hx. unfold percentile_at.
  destruct (S i <? lookback)%nat; [split; reflexivity|].
  assert (Hw := inclusive_window_Forall _ lookback i xs Hall).
  split.
  - destruct (quantile_linear (75 # 100) (inclusive_window lookback i xs)) as [p|] eqn:E;
      [|reflexivity].
    assert (Hp : p == c) by (apply (quantile_constant c (75 # 100) p _ Hw); [lra | lra | exact E]).
    cbn. destruct (Qltb p x) eqn:El; [|reflexivity].
    apply Qltb_lt in El. lra.
  - destruct (quantile_linear (25 # 100) (inclusive_window lookback i xs)) as [p|] eqn:E;
      [|reflexivity].
    assert (Hp : p == c) by (apply (quantile_constant c (25 # 100) p _ Hw); [lra | lra | exact E]).
    cbn. destruct (Qltb x p) eqn:El; [|reflexivity].
    apply Qltb_lt in El. lra.
Qed.

Lemma no_regime_no_category (up down wide narrow low high : bool) :
  (wide = false /\ narrow = false) \/ (low = false /\ high = false) ->
  length (filter (fun b : bool => b)
     [up && wide && low; down && wide && low;
      up && narrow && high; down && narrow && high;
      up && wide && high; down && wide && high]) = 0%nat /\
  (down && wide && low) || (down && narrow && high) = false /\
  (up && wide && low) || (up && narrow && high) = false.
Proof.
  intros [[-> ->] | [-> ->]]; destruct up, down; cbn;
    rewrite ?andb_false_r; cbn; repeat split; reflexivity.
Qed.

(** ** Frames without signals *)

Lemma quiet_frame_backtest (rows : list SimRow) (hold_bars : Z)
      (cost initial_equity : Q) (mode : Mode) :
  Forall no_signal (removelast rows) ->
  snd (backtest_vpa rows hold_bars cost initial_equity mode) = [] /\
  Equity (fst (backtest_vpa rows hold_bars cost initial_equity mode))
  = repeat initial_equity (Nat.max 1 (length rows)) /\
  decisions rows hold_bars cost initial_equity mode
  = repeat no_action (length rows - 1).
Proof.
  intro Hquiet.
  unfold backtest_vpa, decisions, simulate. cbn [fst snd Equity].
  assert (Hrows := with_returns_rows rows).
  assert (Hwl := with_returns_length rows).
  destruct (with_returns rows) as [|[row0 ret0] rest].
  - cbn in Hwl. rewrite <- Hwl. repeat split; reflexivity.
  - cbn [map fst] in Hrows. rewrite <- Hrows in Hquiet.
    destruct (run_bars_no_signal hold_bars cost mode rest row0
                (initial_state initial_equity) eq_refl Hquiet)
      as [Ha [_ [Ht He]]].
    cbv zeta in Ht, He. rewrite Ht, He, Ha.
    cbn [initial_state trades equity last].
    rewrite <- Hwl. cbn [length].
    repeat split; try reflexivity.
    f_equal. lia.
Qed.

(** X4.  A series whose bars all have the same spread, or all the same
    volume, is classified without any category or signal on any bar, and
    the simulator run on it makes no trade and leaves the equity at
    [initial_equity] on every bar. *)
Theorem flat_series_is_quiet (df : list Bar) (c v : Q) (lookback : nat)
        (hold_bars : Z) (cost initial_equity : Q) (mode : Mode) :
  (forall b, In b df -> spread_of b == c) \/ (forall b, In b df -> Volume b == v) ->
  let rows := detect_vpa_anomalies df lookback in
  let result := backtest_vpa (map sim_row rows) hold_bars cost initial_equity mode in
  Forall (fun r => category_count r = 0%nat /\
                   Signal_Long r = false /\ Signal_Short r = false) rows /\
  snd result = [] /\
  Equity (fst result) = repeat initial_equity (Nat.max 1 (length df)).
Proof.
  intro Hflat. cbv zeta.
  assert (Hquiet : Forall (fun r => category_count r = 0%nat /\
                                    Signal_Long r = false /\ Signal_Short r = false)
                          (detect_vpa_anomalies df lookback)).
  { apply Forall_forall. intros r Hin.
    destruct (In_nth_error _ _ Hin) as [i Hi].
    destruct (detect_nth_inv df lookback i r Hi) as [b [Hb ->]].
    assert (Hbin : In b df) by (eapply nth_error_In; exact Hb).
    unfold category_count, classify_row.
    cbn [Anomaly_FakeUp Anomaly_FakeDown Anomaly_AbsorbUp Anomaly_AbsorbDown
         Confirm_Up Confirm_Down Signal_Long Signal_Short].
    apply no_regime_no_category.
    destruct Hflat as [Hs | Hv].
    - left.
      apply (constant_column_unflagged c); [|now apply Hs].
      apply Forall_forall. intros x Hx.
      apply in_map_iff in Hx as [b' [<- Hb']]. now apply Hs.
    - right.
      assert (H := constant_column_unflagged v (Volume b) lookback
                     (map Volume df) i).
      destruct H as [Hhigh Hlow]; [|now apply Hv|now split].
      apply Forall_forall. intros x Hx.
      apply in_map_iff in Hx as [b' [<- Hb']]. now apply Hv. }
  split; [exact Hquiet|].
  destruct (quiet_frame_backtest (map sim_row (detect_vpa_anomalies df lookback))
              hold_bars cost initial_equity mode) as [Ht [He _]].
  { apply Forall_forall. intros x Hx.
    apply removelast_In in Hx.
    apply in_map_iff in Hx as [r [<- Hr]].
    rewrite Forall_forall in Hquiet.
    destruct (Hquiet r Hr) as [_ [Hl Hs]].
    unfold no_signal. cbn. now rewrite Hl, Hs. }
  rewrite length_map, detect_length in He.
  split; assumption.
Qed.

Lemma flat_series_is_quiet_witness :
  snd (backtest_vpa (map sim_row (detect_vpa_anomalies df_quiet 2))
                    5 (1 # 1000) 10000 long_short) = [] /\
  Equity (fst (backtest_vpa (map sim_row (detect_vpa_anomalies df_quiet 2))
                            5 (1 # 1000) 10000 long_short))
  = repeat 10000 (Nat.max 1 (length df_quiet)).
Proof.
  destruct (flat_series_is_quiet df_quiet 1 100 2 5 (1 # 1000) 10000 long_short)
    as [_ H].
  - right. intros b Hb.
    destruct Hb as [<- | [<- | [<- | []]]]; reflexivity.
  - exact H.
Defined.

(** X5.  A frame without signal columns (every [row.get] falls back to
    [False]) is simulated without any entry: no decision other than
    staying flat, no trade, and an equity curve equal to
    [initial_equity] on every bar, in every mode. *)
Theorem unclassified_frame_stays_flat (rows : list SimRow) (hold_bars : Z)
        (cost initial_equity : Q) (mode : Mode) :
  Forall (fun r => signal_long r = None /\ signal_short r = None) rows ->
  decisions rows hold_bars cost initial_equity mode
  = repeat no_action (length rows - 1) /\
  snd (backtest_vpa rows hold_bars cost initial_equity mode) = [] /\
  Equity (fst (backtest_vpa rows hold_bars cost initial_equity mode))
  = repeat initial_equity (Nat.max 1 (length rows)).
Proof.
  intro Hnone.
  destruct (quiet_frame_backtest rows hold_bars cost initial_equity mode)
    as [Ht [He Hd]].
  - apply Forall_forall. intros x Hx. apply removelast_In in Hx.
    rewrite Forall_forall in Hnone. destruct (Hnone x Hx) as [Hl Hs].
    unfold no_signal. now rewrite Hl, Hs.
  - repeat split; assumption.
Qed.

Lemma unclassified_frame_stays_flat_witness :
  snd (backtest_vpa [mkSimRow 0 100 None None; mkSimRow 1 110 None None;
                     mkSimRow 2 90 None None] 1 (1 # 1000) 10000 long_short) = [].
Proof.
  apply (unclassified_frame_stays_flat
           [mkSimRow 0 100 None None; mkSimRow 1 110 None None;
            mkSimRow 2 90 None None] 1 (1 # 1000) 10000 long_short).
  repeat constructor.
Defined.

(** * Further properties of the simulator *)

Lemma long_only_invariant_step (names : list Z) (hold_bars : Z) (cost : Q) :
  forall k prev row ret st acts,
    long_only_invariant k st acts ->
    nth_error names (S k) = Some (name row) ->
    long_only_invariant (S k)
      (fst (bar_step hold_bars cost long_only prev row ret st))
      (acts ++ [snd (bar_step hold_bars cost long_only prev row ret st)]).
Proof.
  intros k prev row ret st acts [Hpos Htr] _.
  destruct (bar_step_spec hold_bars cost long_only prev row ret st)
    as [_ [Hp [_ [_ [Ht _]]]]].
  cbv zeta in *. unfold long_only_invariant.
  rewrite Hp, Ht.
  assert (Hs : takes_short hold_bars long_only prev st = false).
  { unfold takes_short. cbn [permits_short]. now rewrite !andb_false_r. }
  rewrite Hs. split.
  - destruct (takes_long hold_bars long_only prev st); [now right|].
    destruct (exit_due hold_bars st); [now left | exact Hpos].
  - destruct (exit_due hold_bars st) eqn:Eex; [|exact Htr].
    apply Forall_app. split; [exact Htr|].
    constructor; [|constructor]. cbn [direction].
    destruct Hpos as [Hz | Ho].
    + unfold exit_due in Eex. rewrite Hz in Eex. discriminate.
    + now rewrite Ho.
Qed.

Lemma bar_step_without_short_signal (hold_bars : Z) (cost : Q)
      (prev row : SimRow) (ret : Q) (st : SimState) :
  no_short_signal prev ->
  bar_step hold_bars cost long_only prev row ret st
  = bar_step hold_bars cost long_short prev row ret st.
Proof.
  unfold no_short_signal. intro Hs.
  unfold bar_step.
  destruct (exit_check hold_bars cost row (accrue ret st)) as [[s1 pnl] ex].
  unfold entry_check. rewrite Hs. reflexivity.
Qed.

Lemma run_bars_without_short_signal (hold_bars : Z) (cost : Q)
      (rest : list (SimRow * Q)) :
  forall prev st,
    Forall no_short_signal (removelast (prev :: map fst rest)) ->
    run_bars hold_bars cost long_only prev rest st
    = run_bars hold_bars cost long_short prev rest st.
Proof.
  induction rest as [|[row ret] rest IH]; intros prev st Hall; [reflexivity|].
  cbn [map fst] in Hall.
  change (removelast (prev :: row :: map fst rest))
    with (prev :: removelast (row :: map fst rest)) in Hall.
  inversion Hall as [|? ? Hprev Hrest]; subst.
  cbn [run_bars].
  rewrite (bar_step_without_short_signal hold_bars cost prev row ret st Hprev).
  destruct (bar_step hold_bars cost long_short prev row ret st) as [st1 a1].
  now rewrite (IH row st1 Hrest).
Qed.

(** X6.  Every trade of a long-only run is a LONG trade; and when no bar
    before the last carries a Short signal, the long-only run and the
    long-short run of the same frame coincide: same equity curve, same
    trade list. *)
Theorem long_only_trades (df : list SimRow) (hold_bars : Z)
        (cost initial_equity : Q) :
  (forall t, In t (snd (backtest_vpa df hold_bars cost initial_equity long_only)) ->
             direction t = LONG) /\
  (Forall no_short_signal (removelast df) ->
   backtest_vpa df hold_bars cost initial_equity long_only
   = backtest_vpa df hold_bars cost initial_equity long_short).
Proof.
  assert (Hinv := simulate_invariant hold_bars cost long_only (map name df)
                    long_only_invariant
                    (long_only_invariant_step (map name df) hold_bars cost)
                    df initial_equity eq_refl).
  destruct Hinv as [_ Hdir].
  { split; [now left | constructor]. }
  split.
  - unfold backtest_vpa. cbn [snd].
    intros t Hin. rewrite Forall_forall in Hdir. now apply Hdir.
  - intro Hall.
    assert (Heq : simulate df hold_bars cost initial_equity long_only
                  = simulate df hold_bars cost initial_equity long_short).
    { unfold simulate.
      assert (Hrows := with_returns_rows df).
      destruct (with_returns df) as [|[row0 ret0] rest]; [reflexivity|].
      apply run_bars_without_short_signal.
      cbn [map fst] in Hrows. now rewrite Hrows. }
    unfold backtest_vpa. now rewrite Heq.
Qed.

Lemma long_only_trades_witness :
  backtest_vpa [long_sig 0; plain 1; long_sig 2; plain 3] 2 (1 # 1000) 10000 long_only
  = backtest_vpa [long_sig 0; plain 1; long_sig 2; plain 3] 2 (1 # 1000) 10000 long_short.
Proof.
  destruct (long_only_trades [long_sig 0; plain 1; long_sig 2; plain 3]
              2 (1 # 1000) 10000) as [_ H].
  apply H. vm_compute. repeat constructor.
Defined.

(** ** Trades follow one another *)

Lemma trades_in_sequence_later (names : list Z) (ts : list Trade) :
  forall lo hi hi', trades_in_sequence names lo ts hi -> (hi <= hi')%nat ->
                    trades_in_sequence names lo ts hi'.
Proof.
  induction ts as [|t ts IH]; intros lo hi hi' H Hle; cbn in *; [lia|].
  destruct H as [e [x [ed [Hex [He [Hne [Hnx Hrest]]]]]]].
  exists e, x, ed. repeat split; try assumption; try lia.
  eapply IH; eassumption.
Qed.

Lemma trades_in_sequence_snoc (names : list Z) (ts : list Trade) (t : Trade) :
  forall lo b e x ed,
    trades_in_sequence names lo ts b ->
    (b <= e < x)%nat ->
    entry_date t = Some ed -> nth_error names e = Some ed ->
    nth_error names x = Some (exit_date t) ->
    trades_in_sequence names lo (ts ++ [t]) x.
Proof.
  induction ts as [|t0 ts IH]; intros lo b e x ed H Hex He Hne Hnx; cbn in *.
  - exists e, x, ed. repeat split; try assumption; lia.
  - destruct H as [e0 [x0 [ed0 [Hex0 [He0 [Hne0 [Hnx0 Hrest]]]]]]].
    exists e0, x0, ed0. repeat split; try assumption; try lia.
    eapply IH; eassumption.
Qed.

Lemma sequence_invariant_step (names : list Z) (hold_bars : Z) (cost : Q) (mode : Mode) :
  forall k prev row ret st acts,
    sequence_invariant names k st acts ->
    nth_error names (S k) = Some (name row) ->
    sequence_invariant names (S k)
      (fst (bar_step hold_bars cost mode prev row ret st))
      (acts ++ [snd (bar_step hold_bars cost mode prev row ret st)]).
Proof.
  intros k prev row ret st acts [b [Hseq [Hb Hopen]]] Hrow.
  destruct (bar_step_spec hold_bars cost mode prev row ret st)
    as [_ [Hp [_ [He [Ht _]]]]].
  cbv zeta in *. unfold sequence_invariant.
  rewrite Hp, He, Ht.
  destruct (exit_due hold_bars st) eqn:Eex.
  - assert (Hnz : position st <> 0%Z).
    { unfold exit_due in Eex. apply andb_prop in Eex as [H _].
      now apply negb_true_iff, Z.eqb_neq in H. }
    destruct (Hopen Hnz) as [e [ed [Heb [Hen Hne]]]].
    exists (S k). split; [|split; [lia|]].
    + apply (trades_in_sequence_snoc names (trades st) _ 0%nat b e (S k) ed);
        try assumption; cbn [entry_date exit_date]; try assumption. lia.
    + destruct (takes_long hold_bars mode prev st);
        [|destruct (takes_short hold_bars mode prev st)]; cbn [orb]; intro Hnz'.
      * exists (S k), (name row). repeat split; try assumption; lia.
      * exists (S k), (name row). repeat split; try assumption; lia.
      * now elim Hnz'.
  - destruct (takes_long hold_bars mode prev st) eqn:El;
      [|destruct (takes_short hold_bars mode prev st) eqn:Es]; cbn [orb].
    + exists b. split; [exact Hseq|]. split; [lia|].
      intros _. exists (S k), (name row). repeat split; try assumption; lia.
    + exists b. split; [exact Hseq|]. split; [lia|].
      intros _. exists (S k), (name row). repeat split; try assumption; lia.
    + exists b. split; [exact Hseq|]. split; [lia|].
      intro Hnz. destruct (Hopen Hnz) as [e [ed [Heb [Hen Hne]]]].
      exists e, ed. repeat split; try assumption; lia.
Qed.

Lemma strictly_increasing_head (t : Z) (rest : list Z) :
  strictly_increasing (t :: rest) = true ->
  strictly_increasing rest = true /\ Forall (fun u => (t < u)%Z) rest.
Proof.
  revert t. induction rest as [|u rest IH]; intros t H.
  - split; [reflexivity | constructor].
  - cbn [strictly_increasing] in H.
    apply andb_prop in H as [Htu Hrest].
    apply Z.ltb_lt in Htu.
    split; [exact Hrest|].
    constructor; [exact Htu|].
    destruct (IH u Hrest) as [_ Hall].
    eapply Forall_impl; [|exact Hall]. intros v Hv. cbv beta in Hv. lia.
Qed.

Lemma strictly_increasing_nth (ts : list Z) :
  strictly_increasing ts = true ->
  forall i j a b, (i < j)%nat ->
    nth_error ts i = Some a -> nth_error ts j = Some b -> (a < b)%Z.
Proof.
  induction ts as [|t ts IH]; intros H i j a b Hij Hi Hj.
  - destruct i; discriminate.
  - destruct (strictly_increasing_head t ts H) as [Hrest Hall].
    destruct j as [|j]; [lia|].
    destruct i as [|i]; cbn in Hi, Hj.
    + injection Hi as <-. rewrite Forall_forall in Hall.
      apply Hall. eapply nth_error_In. exact Hj.
    + apply (IH Hrest i j); [lia | exact Hi | exact Hj].
Qed.

Lemma trades_in_sequence_dates (names : list Z) (ts : list Trade) :
  strictly_increasing names = true ->
  forall lo hi lo_date,
    trades_in_sequence names lo ts hi ->
    nth_error names lo = Some lo_date ->
    (forall t, In t ts ->
       exists ed, entry_date t = Some ed /\ (lo_date <= ed < exit_date t)%Z) /\
    (forall i t1 t2, nth_error ts i = Some t1 -> nth_error ts (S i) = Some t2 ->
       exists ed2, entry_date t2 = Some ed2 /\ (exit_date t1 <= ed2)%Z).
Proof.
  intro Hinc. induction ts as [|t ts IH]; intros lo hi lo_date Hseq Hlo.
  - split; [intros t [] | intros i t1 t2 Hi; destruct i; discriminate].
  - cbn in Hseq. destruct Hseq as [e [x [ed [Hex [He [Hne [Hnx Hrest]]]]]]].
    assert (Hlo_ed : (lo_date <= ed)%Z).
    { destruct (Nat.eq_dec lo e) as [-> | Hneq]; [rewrite Hne in Hlo; injection Hlo; lia|].
      assert (lo_date < ed)%Z; [|lia].
      apply (strictly_increasing_nth names Hinc lo e); [lia | exact Hlo | exact Hne]. }
    assert (Hed_x : (ed < exit_date t)%Z)
      by (apply (strictly_increasing_nth names Hinc e x); [lia | exact Hne | exact Hnx]).
    destruct (IH x hi (exit_date t) Hrest Hnx) as [Hall Hcons].
    split.
    + intros t' [<- | Hin].
      * exists ed. split; [exact He | lia].
      * destruct (Hall t' Hin) as [ed' [He' Hr]].
        exists ed'. split; [exact He' | lia].
    + intros i t1 t2 Hi Hi2.
      change (nth_error ts i = Some t2) in Hi2.
      destruct i as [|i]; cbn [nth_error] in Hi.
      * injection Hi as <-.
        assert (Hin2 : In t2 ts) by (eapply nth_error_In; exact Hi2).
        destruct (Hall t2 Hin2) as [ed2 [He2 Hr]].
        exists ed2. split; [exact He2 | lia].
      * apply (Hcons i t1 t2 Hi Hi2).
Qed.

(** X7.  On a frame whose index labels increase strictly, every trade is
    exited strictly after it was entered, its entry date is a label of the
    frame (never the [None] the loop starts with), and the trades follow
    one another in the list: each is entered on or after the exit date of
    the trade before it. *)
Theorem trades_are_chronological (df : list SimRow) (hold_bars : Z)
        (cost initial_equity : Q) (mode : Mode) :
  strictly_increasing (map name df) = true ->
  let trade_log := snd (backtest_vpa df hold_bars cost initial_equity mode) in
  (forall t, In t trade_log ->
     exists ed, entry_date t = Some ed /\ In ed (map name df) /\
                (ed < exit_date t)%Z) /\
  (forall i t1 t2,
     nth_error trade_log i = Some t1 -> nth_error trade_log (S i) = Some t2 ->
     exists ed2, entry_date t2 = Some ed2 /\ (exit_date t1 <= ed2)%Z).
Proof.
  intro Hinc. cbv zeta.
  assert (Hinv := simulate_invariant hold_bars cost mode (map name df)
                    (sequence_invariant (map name df))
                    (sequence_invariant_step (map name df) hold_bars cost mode)
                    df initial_equity eq_refl).
  destruct Hinv as [b [Hseq _]].
  { exists 0%nat. cbn. repeat split; try lia. }
  unfold backtest_vpa. cbn [snd].
  set (ts := trades (fst (simulate df hold_bars cost initial_equity mode))) in *.
  destruct ts as [|t0 ts0] eqn:Ets.
  - split; [intros t [] | intros i t1 t2 Hi; destruct i; discriminate].
  - (* the frame has a first row because a trade was entered on one *)
    assert (H0 : exists d0, nth_error (map name df) 0 = Some d0).
    { cbn in Hseq. destruct Hseq as [e [x [ed [Hex [_ [Hne _]]]]]].
      assert (Hlen : (e < length (map name df))%nat)
        by (apply nth_error_Some; congruence).
      destruct (nth_error (map name df) 0) as [d0|] eqn:E; [now exists d0|].
      apply nth_error_None in E. lia. }
    destruct H0 as [d0 Hd0].
    destruct (trades_in_sequence_dates (map name df) (t0 :: ts0) Hinc 0%nat b d0
                Hseq Hd0) as [Hall Hcons].
    split; [|exact Hcons].
    intros t Hin. destruct (Hall t Hin) as [ed [He Hr]].
    exists ed. split; [exact He|]. split; [|lia].
    (* the entry date is a label: read it off the sequence *)
    clear - Hseq Hin He.
    revert Hseq. generalize 0%nat as lo.
    induction (t0 :: ts0) as [|u us IHus]; intros lo Hseq; [destruct Hin|].
    cbn in Hseq. destruct Hseq as [e [x [ed' [_ [He' [Hne [_ Hrest]]]]]]].
    destruct Hin as [-> | Hin].
    + rewrite He in He'. injection He' as <-.
      eapply nth_error_In. exact Hne.
    + apply (IHus Hin x Hrest).
Qed.

Lemma trades_are_chronological_witness :
  exists ed, entry_date (mkTrade (Some 2%Z) 4 SHORT 2) = Some ed /\
             In ed (map name df_long_then_short) /\ (ed < 4)%Z.
Proof.
  assert (H := trades_are_chronological df_long_then_short 2 (1 # 1000) 10000
                 short_only eq_refl).
  cbv zeta in H. destruct H as [H _].
  apply (H (mkTrade (Some 2%Z) 4 SHORT 2)).
  vm_compute. left. reflexivity.
Defined.

(** ** How many trades fit *)

Lemma count_invariant_step (names : list Z) (hold_bars : Z) (cost : Q) (mode : Mode) :
  forall k prev row ret st acts,
    count_invariant hold_bars k st acts ->
    nth_error names (S k) = Some (name row) ->
    count_invariant hold_bars (S k)
      (fst (bar_step hold_bars cost mode prev row ret st))
      (acts ++ [snd (bar_step hold_bars cost mode prev row ret st)]).
Proof.
  intros k prev row ret st acts [Hcount Hheld] _.
  destruct (bar_step_spec hold_bars cost mode prev row ret st)
    as [_ [Hp [Hh [_ [Ht _]]]]].
  cbv zeta in *. unfold count_invariant.
  rewrite Hp, Hh, Ht.
  unfold takes_long, takes_short, flat_for_entry.
  destruct (exit_due hold_bars st) eqn:Eex.
  - assert (Hex : (position st =? 0)%Z = false /\ (hold_bars <= held st + 1)%Z).
    { unfold exit_due in Eex. apply andb_prop in Eex as [H1 H2].
      apply negb_true_iff in H1. apply Z.leb_le in H2. now split. }
    destruct Hex as [Hz Hdue]. rewrite Hz in *.
    rewrite length_app. cbn [length orb andb].
    rewrite Nat.add_1_r, Nat2Z.inj_succ.
    destruct (get_flag (signal_long prev) && permits_long mode);
      [|destruct (get_flag (signal_short prev) && permits_short mode)];
      cbn; split; nia.
  - rewrite orb_false_r.
    destruct (position st =? 0)%Z eqn:Hz; cbn [andb negb].
    + destruct (get_flag (signal_long prev) && permits_long mode);
        [|destruct (get_flag (signal_short prev) && permits_short mode)];
        cbn; rewrite ?Hz; split; lia.
    + cbn. rewrite Hz. split; lia.
Qed.

(** X8.  Each trade uses up [hold_bars] bars of its own after the first
    bar of the frame: the number of trades times [hold_bars] never
    exceeds the number of simulated bars, [len(df) - 1]. *)
Theorem trade_count_bound (df : list SimRow) (hold_bars : Z)
        (cost initial_equity : Q) (mode : Mode) :
  (Z.of_nat (length (snd (backtest_vpa df hold_bars cost initial_equity mode)))
   * hold_bars <= Z.of_nat (length df - 1))%Z.
Proof.
  assert (Hinv := simulate_invariant hold_bars cost mode (map name df)
                    (count_invariant hold_bars)
                    (count_invariant_step (map name df) hold_bars cost mode)
                    df initial_equity eq_refl).
  destruct Hinv as [Hcount Hheld].
  { split; cbn; lia. }
  unfold backtest_vpa. cbn [snd].
  destruct (position (fst (simulate df hold_bars cost initial_equity mode)) =? 0)%Z;
    lia.
Qed.

(** * Further properties of the metrics *)

Lemma pct_change_length (xs : list Q) : length (pct_change xs) = length xs.
Proof.
  destruct xs as [|x t]; [reflexivity|].
  cbn [pct_change length]. rewrite length_map, length_combine.
  cbn [length]. lia.
Qed.

Lemma strategy_return_length (eq : list Q) :
  length (fillna 0 (pct_change eq)) = length eq.
Proof. unfold fillna. now rewrite length_map, pct_change_length. Qed.

Section MoreMetricsProperties.

Variable fpow : Q -> Q -> Q.
Variable fsqrt : Q -> Q.

(** X9.  On the output of [backtest_vpa] the calculator always returns;
    the row count is at least 1, so the CAGR is always the power formula
    (the zero fallback of its guard is never taken); and on a frame of at
    most one bar the volatility is NaN and the Sharpe ratio is 0. *)
Theorem metrics_defined_on_backtest (df : list SimRow) (hold_bars : Z)
        (cost initial_equity : Q) (mode : Mode) :
  let r := backtest_vpa df hold_bars cost initial_equity mode in
  exists m,
    calc_metrics fpow fsqrt (fst r) (snd r) = Returned m /\
    total_trades m = length (snd r) /\
    cagr m = fpow (1 + total_ret m)
                  (252 / inject_Z (Z.of_nat (Nat.max 1 (length df)))) - 1 /\
    ((length df <= 1)%nat -> vol m = None /\ sharpe m = 0).
Proof.
  cbv zeta.
  destruct (simulate_equity_shape df hold_bars cost initial_equity mode)
    as [Hlen _].
  unfold backtest_vpa. cbn [fst snd].
  set (st := fst (simulate df hold_bars cost initial_equity mode)) in *.
  destruct (equity st) as [|e eq] eqn:E; [discriminate|].
  destruct (calc_metrics_nonempty fpow fsqrt e eq
              (fillna 0 (pct_change (e :: eq))) (trades st))
    as [m [Hm [_ [Hc [Hv [Hs Ht]]]]]].
  exists m. split; [exact Hm|]. split; [exact Ht|].
  rewrite strategy_return_length in Hc.
  assert (Hn : length (e :: eq) = Nat.max 1 (length df)) by lia.
  rewrite Hn in Hc.
  split.
  - rewrite Hc.
    now replace (0 <? Nat.max 1 (length df))%nat with true
      by (symmetry; apply Nat.ltb_lt; lia).
  - intro Hshort.
    assert (Hvol : vol m = None).
    { rewrite Hv. unfold std. rewrite strategy_return_length, Hn.
      now replace (Nat.max 1 (length df) <? 2)%nat with true
        by (symmetry; apply Nat.ltb_lt; lia). }
    split; [exact Hvol|]. rewrite Hs, Hvol. reflexivity.
Qed.

(** ** Drawdown *)

Lemma cummax_from_pairs (s : list Q) :
  forall m x M, In (x, M) (combine s (cummax_from m s)) ->
                x <= M /\ (M = m \/ In M s).
Proof.
  induction s as [|y s IH]; intros m x M Hin; [destruct Hin|].
  cbn [cummax_from combine] in Hin. cbv zeta in Hin.
  destruct Hin as [Heq | Hin].
  - injection Heq as <- <-.
    destruct (Qle_bool m y) eqn:E.
    + split; [apply Qle_refl | right; now left].
    + split; [|now left].
      apply Qlt_le_weak, Qnot_le_lt. intro H.
      apply Qle_bool_iff in H. congruence.
  - destruct (IH _ x M Hin) as [Hle [Hm | Hs]].
    + split; [exact Hle|].
      destruct (Qle_bool m y); [right; left; now symmetry | now left].
    + split; [exact Hle | right; now right].
Qed.

Lemma cummax_pairs (s : list Q) (x M : Q) :
  In (x, M) (combine s (cummax s)) -> x <= M /\ In M s.
Proof.
  destruct s as [|y s]; [intros []|].
  cbn [cummax combine]. intros [Heq | Hin].
  - injection Heq as <- <-. split; [apply Qle_refl | now left].
  - destruct (cummax_from_pairs s y x M Hin) as [Hle [-> | Hs]].
    + split; [exact Hle | now left].
    + split; [exact Hle | now right].
Qed.

Lemma series_min_In (l : list Q) (d : Q) : series_min l = Some d -> In d l.
Proof.
  destruct l as [|x t]; [discriminate|].
  cbn [series_min]. intro H. injection H as <-.
  revert x. induction t as [|y t IH]; intro x; [now left|].
  cbn [fold_left].
  destruct (IH (if Qle_bool y x then y else x)) as [Heq | Hin].
  - rewrite <- Heq. destruct (Qle_bool y x); [right; now left | now left].
  - right. now right.
Qed.

Lemma calc_metrics_max_dd (e : Q) (eq rets : list Q) (trades : list Trade)
      (m : Metrics) :
  calc_metrics fpow fsqrt (mkEquityFrame (e :: eq) rets) trades = Returned m ->
  max_dd m = series_min (map (fun p : Q * Q => fst p / snd p - 1)
                             (combine (e :: eq) (cummax (e :: eq)))).
Proof.
  intro Hm.
  apply (f_equal (fun o => match o with
                           | Returned a => max_dd a
                           | Raised _ => None
                           end)) in Hm.
  symmetry. exact Hm.
Qed.

(** X10.  For an equity curve that stays positive, the reported maximum
    drawdown is defined and lies between -100% and 0, both included. *)
Theorem max_drawdown_bounds (data : EquityFrame) (trades : list Trade) (m : Metrics) :
  calc_metrics fpow fsqrt data trades = Returned m ->
  Forall (fun e => 0 < e) (Equity data) ->
  exists d, max_dd m = Some d /\ -1 <= d /\ d <= 0.
Proof.
  destruct data as [[|e eq] rets]; [discriminate|].
  intros Hm Hpos. cbn [Equity] in Hpos.
  rewrite (calc_metrics_max_dd e eq rets trades m Hm).
  set (pairs := combine (e :: eq) (cummax (e :: eq))).
  assert (Hpairs : forall x M, In (x, M) pairs -> x <= M /\ In M (e :: eq) /\ In x (e :: eq)).
  { intros x M Hin. destruct (cummax_pairs (e :: eq) x M Hin) as [Hle HM].
    repeat split; try assumption. now apply in_combine_l in Hin. }
  assert (Hne : pairs <> []) by (unfold pairs; cbn; discriminate).
  clearbody pairs.
  destruct (series_min (map (fun p : Q * Q => fst p / snd p - 1) pairs)) as [d|] eqn:Ed.
  - exists d. split; [reflexivity|].
    apply series_min_In in Ed.
    apply in_map_iff in Ed as [[x M] [<- Hin]]. cbn [fst snd].
    destruct (Hpairs x M Hin) as [Hle [HM Hx]].
    rewrite Forall_forall in Hpos.
    assert (HMpos : 0 < M) by now apply Hpos.
    assert (Hxpos : 0 < x) by now apply Hpos.
    assert (H1 : x / M <= 1) by (apply Qle_shift_div_r; [exact HMpos | lra]).
    assert (H0 : 0 <= x / M) by (apply Qle_shift_div_l; [exact HMpos | lra]).
    split; lra.
  - destruct pairs; [now elim Hne | discriminate].
Qed.

End MoreMetricsProperties.

Lemma max_drawdown_bounds_witness :
  exists m d,
    calc_metrics (fun x _ => x) (fun x => x)
      (mkEquityFrame [100; 120; 90] [0; 1 # 5; - (1 # 4)]) [] = Returned m /\
    max_dd m = Some d /\ -1 <= d /\ d <= 0.
Proof.
  destruct (calc_metrics (fun x _ => x) (fun x => x)
              (mkEquityFrame [100; 120; 90] [0; 1 # 5; - (1 # 4)]) [])
    as [m|] eqn:E; [|discriminate E].
  destruct (max_drawdown_bounds (fun x _ => x) (fun x => x)
              (mkEquityFrame [100; 120; 90] [0; 1 # 5; - (1 # 4)]) [] m E)
    as [d Hd].
  - repeat constructor.
  - exists m, d. split; [reflexivity | exact Hd].
Defined.

(** ** Zero variance *)

Lemma Qsum_zero (l : list Q) : Forall (fun x => x == 0) l -> Qsum l == 0.
Proof.
  induction 1 as [|x l Hx Hl IH]; [reflexivity|].
  cbv beta in Hx.
  cbn [Qsum fold_right]. fold (Qsum l). rewrite Hx, IH. reflexivity.
Qed.

Lemma Qsum_constant (c : Q) (l : list Q) :
  Forall (fun x => x == c) l -> Qsum l == inject_Z (Z.of_nat (length l)) * c.
Proof.
  induction 1 as [|x l Hx Hl IH].
  - cbn. ring.
  - cbv beta in Hx.
    cbn [Qsum fold_right length]. fold (Qsum l).
    rewrite Nat2Z.inj_succ. unfold Z.succ.
    rewrite inject_Z_plus. change (inject_Z 1) with 1.
    rewrite Hx, IH. ring.
Qed.

Lemma mean_constant (c : Q) (l : list Q) :
  l <> [] -> Forall (fun x => x == c) l -> mean l == c.
Proof.
  intros Hne Hall. unfold mean. rewrite (Qsum_constant c l Hall).
  field. destruct l as [|x l]; [now elim Hne|].
  intro H. cbn [length] in H.
  unfold Qeq, inject_Z in H. cbn [Qnum Qden] in H. lia.
Qed.

Lemma zero_returns_flat (l : list Q) :
  forall e, ~ e == 0 ->
    Forall (fun x => x == 0)
           (map (fun pc : Q * Q => snd pc / fst pc - 1) (combine (e :: l) l)) ->
    Forall (fun x => x == e) l.
Proof.
  induction l as [|y l IH]; intros e He Hall; [constructor|].
  cbn [combine map fst snd] in Hall.
  inversion Hall as [|? ? Hy Hrest]; subst. cbv beta in Hy.
  assert (Hye : y == e).
  { assert (H1 : y / e == 1) by lra.
    assert (H2 : y == (y / e) * e) by (field; exact He).
    rewrite H2, H1. ring. }
  constructor; [exact Hye|].
  assert (Hy0 : ~ y == 0) by (intro H; apply He; rewrite <- Hye; exact H).
  specialize (IH y Hy0 Hrest).
  eapply Forall_impl; [|exact IH].
  intros x Hx. cbv beta in Hx. now rewrite Hx.
Qed.

Lemma last_Forall_Qeq (e : Q) (l : list Q) :
  Forall (fun x => x == e) l -> last l e == e.
Proof.
  induction 1 as [|x l Hx Hl IH]; [reflexivity|].
  cbv beta in Hx.
  destruct l as [|y l]; [exact Hx|].
  change (last (x :: y :: l) e) with (last (y :: l) e). exact IH.
Qed.

Section ZeroVariance.

Variable fpow : Q -> Q -> Q.
Variable fsqrt : Q -> Q.

Hypothesis fsqrt_zero : forall x, x == 0 -> fsqrt x == 0.
Hypothesis fpow_one : forall x y, x == 1 -> fpow x y == 1.

Lemma std_constant (c s : Q) (rets : list Q) :
  Forall (fun x => x == c) rets -> std fsqrt rets = Some s -> s == 0.
Proof.
  intros Hall Hs. unfold std in Hs.
  destruct (length rets <? 2)%nat eqn:E; [discriminate|].
  apply (f_equal (fun o => match o with Some v => v | None => 0 end)) in Hs.
  cbv beta iota zeta in Hs. rewrite <- Hs.
  apply fsqrt_zero.
  assert (Hne : rets <> []).
  { intro H. subst rets. discriminate. }
  assert (Hm := mean_constant c rets Hne Hall).
  assert (Hsq : Qsum (map (fun x => (x - mean rets) * (x - mean rets)) rets) == 0).
  { apply Qsum_zero. apply Forall_forall. intros y Hy.
    apply in_map_iff in Hy as [x [<- Hx]].
    rewrite Forall_forall in Hall. rewrite (Hall x Hx), Hm. ring. }
  rewrite Hsq. unfold Qdiv. ring.
Qed.

(** X11.  A run whose strategy returns are all equal has a flat equity
    curve, a total return and a CAGR of 0, and a Sharpe ratio of exactly 0,
    for a non-zero initial equity and any square root and power functions
    with [sqrt 0 = 0] and [1 ** y = 1]. *)
Theorem zero_variance_run (df : list SimRow) (hold_bars : Z)
        (cost initial_equity : Q) (mode : Mode) (c : Q) :
  ~ initial_equity == 0 ->
  let r := backtest_vpa df hold_bars cost initial_equity mode in
  Forall (fun x => x == c) (Strategy_Return (fst r)) ->
  Forall (fun e => e == initial_equity) (Equity (fst r)) /\
  exists m,
    calc_metrics fpow fsqrt (fst r) (snd r) = Returned m /\
    total_ret m == 0 /\ cagr m == 0 /\ sharpe m = 0.
Proof.
  intros Hie. cbv zeta.
  destruct (simulate_equity_shape df hold_bars cost initial_equity mode)
    as [_ [_ Hhd]].
  unfold backtest_vpa. cbn [fst snd Equity Strategy_Return].
  set (st := fst (simulate df hold_bars cost initial_equity mode)) in *.
  destruct (equity st) as [|e eq] eqn:E; [discriminate|].
  cbn [hd_error] in Hhd. injection Hhd as ->.
  intro Hall.
  unfold fillna, pct_change in Hall. cbn [map] in Hall.
  inversion Hall as [|? ? Hc Hrest]; subst. cbv beta in Hc.
  rewrite map_map in Hrest.
  assert (Hflat : Forall (fun x => x == initial_equity) eq).
  { apply zero_returns_flat; [exact Hie|].
    eapply Forall_impl; [|exact Hrest].
    intros x Hx. cbv beta in Hx. rewrite Hx, <- Hc. reflexivity. }
  split; [constructor; [reflexivity | exact Hflat]|].
  destruct (calc_metrics_nonempty fpow fsqrt initial_equity eq
              (fillna 0 (pct_change (initial_equity :: eq))) (trades st))
    as [m [Hm [Htot [_ [Hv _]]]]].
  exists m. split; [exact Hm|].
  assert (Hlast := last_Forall_Qeq initial_equity eq Hflat).
  split; [|split].
  - rewrite Htot, Hlast. field. exact Hie.
  - apply (cagr_flat_equity fpow fsqrt initial_equity eq _ (trades st) m
             Hie Hlast fpow_one Hm).
  - apply (sharpe_guard fpow fsqrt _ _ m Hm).
    intros v Hvol. rewrite Hv in Hvol.
    destruct (std fsqrt (fillna 0 (pct_change (initial_equity :: eq)))) as [s|] eqn:Es;
      [|discriminate].
    assert (Hs0 : s == 0) by (apply (std_constant c s _ Hall Es)).
    apply (f_equal (fun o => match o with Some v => v | None => 0 end)) in Hvol.
    cbv beta iota in Hvol. rewrite <- Hvol, Hs0. lra.
Qed.

End ZeroVariance.

Lemma zero_variance_run_witness :
  exists m,
    calc_metrics (fun x _ => x) (fun x => x)
      (fst (backtest_vpa [plain 0; plain 1; plain 2] 5 (1 # 1000) 10000 long_short))
      (snd (backtest_vpa [plain 0; plain 1; plain 2] 5 (1 # 1000) 10000 long_short))
    = Returned m /\
    total_ret m == 0 /\ cagr m == 0 /\ sharpe m = 0.
Proof.
  assert (H := zero_variance_run (fun x _ => x) (fun x => x)
                 (fun x Hx => Hx) (fun x _ Hx => Hx)
                 [plain 0; plain 1; plain 2] 5 (1 # 1000) 10000 long_short 0).
  cbv zeta in H. apply H.
  - intro Hz. vm_compute in Hz. discriminate.
  - vm_compute. repeat constructor.
Defined.

(** * Scanners *)

Lemma last_map (A B : Type) (f : A -> B) (l : list A) (d : A) :
  last (map f l) (f d) = f (last l d).
Proof.
  revert d. induction l as [|x l IH]; intro d; [reflexivity|].
  cbn [map]. rewrite (last_cons_default B (f x) (f d) (map f l)).
  rewrite (last_cons_default A x d l). apply IH.
Qed.

Lemma last_In (A : Type) (l : list A) (d : A) : In (last l d) (d :: l).
Proof.
  revert d. induction l as [|x l IH]; intro d; [left; reflexivity|].
  rewrite (last_cons_default A x d l). right. apply IH.
Qed.

(** [iloc[-1]] of a classified non-empty frame is the row of its last
    bar. *)
Lemma detect_last_row (b : Bar) (rest : list Bar) (lookback : nat) :
  exists r, last_row (detect_vpa_anomalies (b :: rest) lookback) = Returned r /\
            In r (detect_vpa_anomalies (b :: rest) lookback) /\
            bar r = last rest b.
Proof.
  assert (Hb := detect_bars (b :: rest) lookback).
  destruct (detect_vpa_anomalies (b :: rest) lookback) as [|r0 t] eqn:E;
    [discriminate|].
  cbn [map] in Hb.
  assert (Hb0 : bar r0 = b) by congruence.
  assert (Ht : map bar t = rest) by congruence.
  exists (last t r0). split; [reflexivity|]. split; [apply last_In|].
  rewrite <- Hb0, <- Ht. symmetry. apply last_map.
Qed.

(** The six category columns of a classified row, as conjunctions of three
    pairwise exclusive pairs of flags. *)
Lemma detect_row_categories (df : list Bar) (lookback : nat) (r : Row) :
  In r (detect_vpa_anomalies df lookback) ->
  exists up down wide narrow low high : bool,
    up && down = false /\ wide && narrow = false /\ high && low = false /\
    Anomaly_FakeUp r = up && wide && low /\
    Anomaly_FakeDown r = down && wide && low /\
    Anomaly_AbsorbUp r = up && narrow && high /\
    Anomaly_AbsorbDown r = down && narrow && high /\
    Confirm_Up r = up && wide && high /\
    Confirm_Down r = down && wide && high /\
    Signal_Long r = down && wide && low || down && narrow && high /\
    Signal_Short r = up && wide && low || up && narrow && high.
Proof.
  intro Hin.
  destruct (In_nth_error _ _ Hin) as [i Hi].
  destruct (detect_nth_inv df lookback i r Hi) as [b [_ ->]].
  unfold classify_row.
  cbn [Anomaly_FakeUp Anomaly_FakeDown Anomaly_AbsorbUp Anomaly_AbsorbDown
       Confirm_Up Confirm_Down Signal_Long Signal_Short].
  do 6 eexists.
  split; [apply (up_down_exclusive (body_of b))|].
  split; [apply (above_below_exclusive lookback (map spread_of df) i)|].
  split; [apply (above_below_exclusive lookback (map Volume df) i)|].
  repeat split; reflexivity.
Qed.

(** X12.  [scan_for_anomalies_today] prints one line per symbol, in the
    order of the symbols.  A symbol whose download fails or whose frame has
    no rows gets the error line; every other symbol gets a status line with
    the close of its last bar, and the status is either the no-anomaly text
    or exactly one of the six labels, never a comma-joined list. *)
Theorem scan_line_per_symbol (fetch : String.string -> option (list Bar))
        (symbols : list String.string) :
  Forall2
    (fun sym line =>
       match fetch sym with
       | Some (b :: rest) =>
           exists status,
             line = StatusLine sym (Close (last rest b)) status /\
             In status ["-- no anomaly"; "FAKE UP (bearish)";
                        "FAKE DOWN (bullish)"; "ABSORB UP (bearish)";
                        "ABSORB DOWN (bullish)"; "CONFIRMED UP";
                        "CONFIRMED DOWN"]
       | _ => line = ErrorLine sym
       end)
    symbols (scan_for_anomalies_today fetch symbols).
Proof.
  unfold scan_for_anomalies_today.
  induction symbols as [|sym symbols IH]; [constructor|].
  cbn [map]. constructor; [|exact IH].
  unfold scan_symbol.
  destruct (fetch sym) as [[|b rest]|]; [reflexivity | | reflexivity].
  destruct (detect_last_row b rest LOOKBACK_WINDOW) as [r [Hr [Hin Hbar]]].
  rewrite Hr, Hbar.
  exists (scan_status r). split; [reflexivity|].
  destruct (detect_row_categories (b :: rest) LOOKBACK_WINDOW r Hin)
    as (up & down & wide & narrow & low & high & Hud & Hwn & Hhl
        & H1 & H2 & H3 & H4 & H5 & H6 & _).
  unfold scan_status, scan_signals. rewrite H1, H2, H3, H4, H5, H6.
  destruct up, down, wide, narrow, low, high; try discriminate;
    simpl; auto 10.
Qed.

(** X13.  The scanner's status agrees with the trade signals of the row it
    reports: a row carrying a Long signal is reported with one of the two
    bullish anomaly labels, a row carrying a Short signal with one of the
    two bearish ones, and a row without a signal as no anomaly or as a
    confirmed move. *)
Theorem scan_status_follows_signals (df : list Bar) (lookback : nat) (r : Row) :
  In r (detect_vpa_anomalies df lookback) ->
  (Signal_Long r = true ->
   In (scan_status r) ["FAKE DOWN (bullish)"; "ABSORB DOWN (bullish)"]) /\
  (Signal_Short r = true ->
   In (scan_status r) ["FAKE UP (bearish)"; "ABSORB UP (bearish)"]) /\
  (Signal_Long r = false -> Signal_Short r = false ->
   In (scan_status r) ["-- no anomaly"; "CONFIRMED UP"; "CONFIRMED DOWN"]).
Proof.
  intro Hin.
  destruct (detect_row_categories df lookback r Hin)
    as (up & down & wide & narrow & low & high & Hud & Hwn & Hhl
        & H1 & H2 & H3 & H4 & H5 & H6 & HL & HS).
  unfold scan_status, scan_signals. rewrite H1, H2, H3, H4, H5, H6, HL, HS.
  destruct up, down, wide, narrow, low, high; try discriminate;
    simpl; (split; [|split]); intros; try discriminate; auto 10.
Qed.

Lemma scan_status_follows_signals_witness :
  In (scan_status row_spreads_2)
     ["-- no anomaly"; "CONFIRMED UP"; "CONFIRMED DOWN"].
Proof.
  assert (Hin : In row_spreads_2 (detect_vpa_anomalies df_spreads 2))
    by (vm_compute; right; right; left; reflexivity).
  apply (scan_status_follows_signals df_spreads 2 row_spreads_2 Hin);
    vm_compute; reflexivity.
Defined.

(** ** The universe scanner *)

Lemma scan_today_fold (fetch : String.string -> option (list Bar))
      (symbols : list String.string) (acc : ScanResult) :
  fold_left
    (fun acc sym =>
       let r := scan_today_symbol fetch sym in
       mkScanResult (alerts acc ++ alerts r) (clean acc ++ clean r)
                    (scan_errors acc ++ scan_errors r))
    symbols acc
  = mkScanResult
      (alerts acc ++ flat_map (fun s => alerts (scan_today_symbol fetch s)) symbols)
      (clean acc ++ flat_map (fun s => clean (scan_today_symbol fetch s)) symbols)
      (scan_errors acc
       ++ flat_map (fun s => scan_errors (scan_today_symbol fetch s)) symbols).
Proof.
  revert acc. induction symbols as [|sym symbols IH]; intro acc.
  - cbn [fold_left flat_map]. rewrite !app_nil_r. now destruct acc.
  - cbn [fold_left flat_map]. rewrite IH.
    cbn [alerts clean scan_errors]. now rewrite <- !app_assoc.
Qed.

(** What one symbol contributes to the universe scan. *)
Lemma scan_today_symbol_cases (fetch : String.string -> option (list Bar))
      (sym : String.string) :
  match fetch sym with
  | None => scan_today_symbol fetch sym = mkScanResult [] [] [sym]
  | Some df =>
      if (length df <? LOOKBACK_WINDOW + 2)%nat
      then scan_today_symbol fetch sym = mkScanResult [] [] []
      else
        exists b rest, df = b :: rest /\
          (scan_today_symbol fetch sym = mkScanResult [] [sym] [] \/
           exists s,
             scan_today_symbol fetch sym
             = mkScanResult
                 [mkAlert sym (Close (last rest b))
                          (int_of (Volume (last rest b))) s] [] [] /\
             In s ["FAKE UP   (bearish reversal)";
                   "FAKE DOWN (bullish reversal)";
                   "ABSORB UP   (bearish absorption)";
                   "ABSORB DOWN (bullish absorption)";
                   "CONFIRM UP   (trend continuation)";
                   "CONFIRM DOWN (trend continuation)"])
  end.
Proof.
  unfold scan_today_symbol.
  destruct (fetch sym) as [df|]; [|reflexivity].
  destruct (length df <? LOOKBACK_WINDOW + 2)%nat eqn:E; [reflexivity|].
  destruct df as [|b rest]; [discriminate|].
  exists b, rest. split; [reflexivity|].
  destruct (detect_last_row b rest LOOKBACK_WINDOW) as [r [Hr [Hin Hbar]]].
  rewrite Hr, Hbar. cbv zeta.
  destruct (detect_row_categories (b :: rest) LOOKBACK_WINDOW r Hin)
    as (up & down & wide & narrow & low & high & Hud & Hwn & Hhl
        & H1 & H2 & H3 & H4 & H5 & H6 & _).
  unfold scan_today_sigs. rewrite H1, H2, H3, H4, H5, H6.
  destruct up, down, wide, narrow, low, high; try discriminate;
    cbn [andb app map];
    first [ left; reflexivity
          | right; eexists; split; [reflexivity|]; simpl; auto 10 ].
Qed.

(** X14.  In [scan_today] every symbol whose download fails or whose frame
    has at least [LOOKBACK_WINDOW + 2] bars adds exactly one entry, to the
    alerts, to the clean list or to the errors; a shorter frame adds
    nothing.  Every alert is for a symbol of the input with at least
    [LOOKBACK_WINDOW + 2] bars, carries the close and the truncated volume
    of the last bar and exactly one of the six labels. *)
Theorem scan_today_one_entry_per_symbol
        (fetch : String.string -> option (list Bar))
        (symbols : list String.string) :
  (length (alerts (scan_today fetch symbols))
   + length (clean (scan_today fetch symbols))
   + length (scan_errors (scan_today fetch symbols))
   = length (filter (fun sym =>
                       match fetch sym with
                       | None => true
                       | Some df => negb (length df <? LOOKBACK_WINDOW + 2)%nat
                       end) symbols))%nat /\
  Forall (fun a =>
            In (alert_symbol a) symbols /\
            exists b rest,
              fetch (alert_symbol a) = Some (b :: rest) /\
              (LOOKBACK_WINDOW + 2 <= length (b :: rest))%nat /\
              alert_price a = Close (last rest b) /\
              alert_volume a = int_of (Volume (last rest b)) /\
              In (alert_signal a)
                 ["FAKE UP   (bearish reversal)";
                  "FAKE DOWN (bullish reversal)";
                  "ABSORB UP   (bearish absorption)";
                  "ABSORB DOWN (bullish absorption)";
                  "CONFIRM UP   (trend continuation)";
                  "CONFIRM DOWN (trend continuation)"])
         (alerts (scan_today fetch symbols)).
Proof.
  unfold scan_today. rewrite scan_today_fold.
  cbn [alerts clean scan_errors app].
  split.
  - induction symbols as [|sym symbols IH]; [reflexivity|].
    cbn [flat_map filter]. rewrite !length_app.
    assert (Hc := scan_today_symbol_cases fetch sym).
    destruct (fetch sym) as [df|].
    + destruct (length df <? LOOKBACK_WINDOW + 2)%nat.
      * rewrite Hc. cbn [negb alerts clean scan_errors length]. lia.
      * destruct Hc as (b & rest & _ & [Hc | [s [Hc _]]]);
          rewrite Hc; cbn [negb alerts clean scan_errors length]; lia.
    + rewrite Hc. cbn [alerts clean scan_errors length]. lia.
  - apply Forall_forall. intros a Ha.
    apply in_flat_map in Ha as [sym [Hsym Ha]].
    assert (Hc := scan_today_symbol_cases fetch sym).
    destruct (fetch sym) as [df|] eqn:Ef.
    + destruct (length df <? LOOKBACK_WINDOW + 2)%nat eqn:E.
      * rewrite Hc in Ha. destruct Ha.
      * destruct Hc as (b & rest & -> & [Hc | [s [Hc Hs]]]);
          rewrite Hc in Ha; cbn [alerts] in Ha; [destruct Ha|].
        destruct Ha as [<- | []]. cbn [alert_symbol alert_price alert_volume alert_signal].
        split; [exact Hsym|].
        exists b, rest. split; [exact Ef|].
        apply Nat.ltb_ge in E.
        repeat split; try assumption; reflexivity.
    + rewrite Hc in Ha. destruct Ha.
Qed.

(** * The universe backtest *)

Section UniverseBacktestProperties.

Variable fpow : Q -> Q -> Q.
Variable fsqrt : Q -> Q.

(** On a classified frame with at least one row the body of the mode loop
    returns a metrics row. *)
Lemma backtest_mode_returns (r0 : Row) (t : list Row) (sym : String.string)
      (mode : Mode) :
  exists m,
    backtest_mode fpow fsqrt (r0 :: t) sym mode = Returned m /\
    mr_Symbol m = sym /\ mr_Mode m = mode /\
    mr_Trades m
    = length (snd (backtest_vpa (map sim_row (r0 :: t)) HOLD_BARS
                                COST_PER_TRADE INITIAL_EQUITY mode)) /\
    mr_MaxDD m <> None.
Proof.
  unfold backtest_mode, calc_metrics_etf. cbv zeta.
  destruct (simulate_equity_shape (map sim_row (r0 :: t)) HOLD_BARS
              COST_PER_TRADE INITIAL_EQUITY mode) as [Hlen _].
  unfold backtest_vpa. cbn [fst snd Equity Strategy_Return].
  set (st := fst (simulate (map sim_row (r0 :: t)) HOLD_BARS COST_PER_TRADE
                           INITIAL_EQUITY mode)) in *.
  destruct (equity st) as [|e eq] eqn:E; [discriminate|].
  cbn [map iloc_last iloc_first bind].
  eexists. split; [reflexivity|].
  cbn [mr_Symbol mr_Mode mr_Trades mr_MaxDD cummax combine map series_min option_map].
  repeat split. discriminate.
Qed.

Lemma backtest_symbol_cases (fetch : String.string -> option (list Bar))
      (sym : String.string) :
  match fetch sym with
  | None => backtest_symbol fpow fsqrt fetch sym = []
  | Some df =>
      if (length df <? LOOKBACK_WINDOW + 10)%nat
      then backtest_symbol fpow fsqrt fetch sym = []
      else
        exists r1 r2,
          backtest_symbol fpow fsqrt fetch sym = [r1; r2] /\
          backtest_mode fpow fsqrt (detect_vpa_anomalies df LOOKBACK_WINDOW)
                        sym long_only = Returned r1 /\
          backtest_mode fpow fsqrt (detect_vpa_anomalies df LOOKBACK_WINDOW)
                        sym long_short = Returned r2 /\
          detect_vpa_anomalies df LOOKBACK_WINDOW <> []
  end.
Proof.
  unfold backtest_symbol.
  destruct (fetch sym) as [df|]; [|reflexivity].
  destruct (length df <? LOOKBACK_WINDOW + 10)%nat eqn:E; [reflexivity|].
  cbv zeta.
  assert (Hlen := detect_length df LOOKBACK_WINDOW).
  destruct (detect_vpa_anomalies df LOOKBACK_WINDOW) as [|r0 t] eqn:Ed.
  { destruct df; [discriminate E | discriminate Hlen]. }
  destruct (backtest_mode_returns r0 t sym long_only) as [r1 [H1 _]].
  destruct (backtest_mode_returns r0 t sym long_short) as [r2 [H2 _]].
  rewrite H1, H2. exists r1, r2.
  repeat split; congruence.
Qed.

(** X15.  [backtest_all] appends exactly two rows, long-only then
    long-short, for every symbol whose download succeeds with at least
    [LOOKBACK_WINDOW + 10] bars, and none for any other symbol: on such a
    frame neither the simulator nor the metrics raise.  Every row has a
    defined maximum drawdown and reports the number of trades of a run of
    the simulator, with the module's default parameters and the row's mode,
    on the classified frame of the row's symbol; that number times
    [HOLD_BARS] does not exceed the number of bars after the first. *)
Theorem backtest_all_two_rows_per_symbol
        (fetch : String.string -> option (list Bar))
        (symbols : list String.string) :
  map (fun r => (mr_Symbol r, mr_Mode r))
      (backtest_all fpow fsqrt fetch symbols)
  = flat_map (fun sym =>
                match fetch sym with
                | Some df =>
                    if (length df <? LOOKBACK_WINDOW + 10)%nat then []
                    else [(sym, long_only); (sym, long_short)]
                | None => []
                end) symbols /\
  Forall (fun r =>
            mr_MaxDD r <> None /\
            exists df,
              fetch (mr_Symbol r) = Some df /\
              mr_Trades r
              = length (snd (backtest_vpa
                               (map sim_row (detect_vpa_anomalies df LOOKBACK_WINDOW))
                               HOLD_BARS COST_PER_TRADE INITIAL_EQUITY (mr_Mode r))) /\
              (Z.of_nat (mr_Trades r) * HOLD_BARS <= Z.of_nat (length df - 1))%Z)
         (backtest_all fpow fsqrt fetch symbols).
Proof.
  assert (Hrow : forall df sym mode r,
            fetch sym = Some df ->
            detect_vpa_anomalies df LOOKBACK_WINDOW <> [] ->
            backtest_mode fpow fsqrt (detect_vpa_anomalies df LOOKBACK_WINDOW)
                          sym mode = Returned r ->
            mr_Symbol r = sym /\ mr_Mode r = mode /\
            mr_MaxDD r <> None /\
            exists df,
              fetch (mr_Symbol r) = Some df /\
              mr_Trades r
              = length (snd (backtest_vpa
                               (map sim_row (detect_vpa_anomalies df LOOKBACK_WINDOW))
                               HOLD_BARS COST_PER_TRADE INITIAL_EQUITY (mr_Mode r))) /\
              (Z.of_nat (mr_Trades r) * HOLD_BARS <= Z.of_nat (length df - 1))%Z).
  { intros df sym mode r Hf Hne Hr.
    destruct (detect_vpa_anomalies df LOOKBACK_WINDOW) as [|r0 t] eqn:Ed;
      [now elim Hne|].
    destruct (backtest_mode_returns r0 t sym mode) as [m [Hm [Hs [Hmo [Ht Hd]]]]].
    assert (m = r) by congruence. subst m.
    repeat split; try assumption.
    exists df. rewrite Hs, Hmo, Ed. repeat split; try assumption.
    rewrite Ht.
    set (rows := map sim_row (r0 :: t)).
    assert (Hinv := simulate_invariant HOLD_BARS COST_PER_TRADE mode
                      (map name rows) (count_invariant HOLD_BARS)
                      (count_invariant_step (map name rows) HOLD_BARS
                         COST_PER_TRADE mode)
                      rows INITIAL_EQUITY eq_refl).
    destruct Hinv as [Hcount Hheld].
    { split; cbn; lia. }
    assert (Hl : length rows = length df).
    { unfold rows. rewrite length_map, <- Ed. apply detect_length. }
    rewrite Hl in Hcount.
    unfold backtest_vpa. cbn [snd].
    destruct (position (fst (simulate rows HOLD_BARS COST_PER_TRADE
                                      INITIAL_EQUITY mode)) =? 0)%Z;
      lia. }
  unfold backtest_all. split.
  - induction symbols as [|sym symbols IH]; [reflexivity|].
    cbn [flat_map]. rewrite map_app, IH. f_equal.
    assert (Hc := backtest_symbol_cases fetch sym).
    destruct (fetch sym) as [df|] eqn:Ef; [|now rewrite Hc].
    destruct (length df <? LOOKBACK_WINDOW + 10)%nat; [now rewrite Hc|].
    destruct Hc as (r1 & r2 & -> & H1 & H2 & Hne).
    destruct (Hrow df sym long_only r1 Ef Hne H1) as [Hs1 [Hm1 _]].
    destruct (Hrow df sym long_short r2 Ef Hne H2) as [Hs2 [Hm2 _]].
    cbn [map]. now rewrite Hs1, Hm1, Hs2, Hm2.
  - apply Forall_forall. intros r Hr.
    apply in_flat_map in Hr as [sym [_ Hr]].
    assert (Hc := backtest_symbol_cases fetch sym).
    destruct (fetch sym) as [df|] eqn:Ef; [|rewrite Hc in Hr; destruct Hr].
    destruct (length df <? LOOKBACK_WINDOW + 10)%nat;
      [rewrite Hc in Hr; destruct Hr|].
    destruct Hc as (r1 & r2 & Hc & H1 & H2 & Hne).
    rewrite Hc in Hr.
    destruct Hr as [<- | [<- | []]].
    + destruct (Hrow df sym long_only r1 Ef Hne H1) as [_ [_ H]]. exact H.
    + destruct (Hrow df sym long_short r2 Ef Hne H2) as [_ [_ H]]. exact H.
Qed.

End UniverseBacktestProperties.
